(** * PhotoOrganizer: a shallow embedding of [photo_organizer.py]

    The script scans directory trees for image files, groups byte-identical
    files ([find_duplicates]), lists / relocates / deletes the duplicates
    ([handle_duplicates]) and files the photos under a date-partitioned tree
    ([sort_photos]).  Every function below is a transcription of the Python
    function of the same name; the file system, the interpreter's exceptions
    and the console are made explicit. *)

From Stdlib.Strings Require Import Byte Ascii String.
From stdpp Require Import gmap strings list fin_maps pretty.

Local Open Scope string_scope.
Local Open Scope list_scope.

(** ** Python exceptions and results *)

(** The exception classes the script meets.  [FileNotFoundError] and
    [OtherOSError] (permission denied, is-a-directory, [shutil.Error], ...)
    are the subclasses of [OSError]; [IOError] is an alias of [OSError]. *)
Inductive exn :=
| FileNotFoundError
| OtherOSError
| ValueError
| TypeError
| IndexError
| EOFError
| OverflowError.

Definition is_OSError (e : exn) : bool :=
  match e with
  | FileNotFoundError | OtherOSError => true
  | _ => false
  end.

Inductive result (A : Type) :=
| Ok (a : A)
| Raise (e : exn).
Arguments Ok {A} a.
Arguments Raise {A} e.

Global Instance exn_eq_dec : EqDecision exn.
Proof. solve_decision. Defined.

Global Instance result_eq_dec {A} `{EqDecision A} : EqDecision (result A).
Proof. solve_decision. Defined.

Global Instance result_ret : MRet result := fun A a => Ok a.
Global Instance result_bind : MBind result := fun A B k r =>
  match r with
  | Ok a => k a
  | Raise e => Raise e
  end.

(** ** Paths ([os.path]) *)

Module Path.

(** An absolute, normalised path is the list of its components, so
    [os.path.abspath] is the identity and two paths are the same string
    exactly when the lists are equal. *)
Definition path := list string.

Definition join (d : path) (name : string) : path := d ++ [name].

Definition basename (p : path) : string := default "" (last p).

Definition dirname (p : path) : path := removelast p.

(** [split_last_dot s] cuts [s] in front of its last dot. *)
Fixpoint split_last_dot (s : string) : option (string * string) :=
  match s with
  | EmptyString => None
  | String c s' =>
      match split_last_dot s' with
      | Some (b, e) => Some (String c b, e)
      | None => if Ascii.eqb c "."%char then Some (EmptyString, s) else None
      end
  end.

Fixpoint all_dots (s : string) : bool :=
  match s with
  | EmptyString => true
  | String c s' => Ascii.eqb c "."%char && all_dots s'
  end.

(** [genericpath._splitext] on the last component: the extension starts
    at the last dot, unless only dots precede it. *)
Definition splitext_name (name : string) : string * string :=
  match split_last_dot name with
  | Some (b, e) => if all_dots b then (name, "") else (b, e)
  | None => (name, "")
  end.

Definition splitext (p : path) : path * string :=
  let '(stem, ext) := splitext_name (basename p) in
  (dirname p ++ [stem], ext).

(** The f-string [f"{base}_{counter}{ext}"]. *)
Definition suffixed (base : path) (counter : nat) (ext : string) : path :=
  dirname base ++ [basename base +:+ "_" +:+ pretty counter +:+ ext].

End Path.
Export Path.

(** ** The file system *)

Module FS.

(** What [Image.open(...)._getexif()] yields for a file. *)
Inductive exif_value :=
| VStr (s : string)
| VInt (n : Z)
| VBytes (b : list byte).

Inductive exif_read :=
| ExifRaises
| ExifNone
| ExifDict (info : list (N * exif_value)).

Inductive image_info :=
| OpenFails
| NoGetexif
| HasGetexif (r : exif_read).

Record file_data := FileData {
  content : list byte;
  readable : bool;
  read_error_at : option nat;
  mtime : Z;
  image : image_info
}.

(** A directory entry names a regular file, identified by its inode
    number (two entries with one inode are hard links of one file), or a
    directory. *)
Inductive node :=
| File (ino : nat) (d : file_data)
| Dir (mt : Z).

Abbreviation tree := (gmap path node).

Definition exists_ (s : tree) (p : path) : bool :=
  bool_decide (is_Some (s !! p)).

Definition isdir (s : tree) (p : path) : bool :=
  match s !! p with
  | Some (Dir _) => true
  | _ => false
  end.

Definition isfile (s : tree) (p : path) : bool :=
  match s !! p with
  | Some (File _ _) => true
  | _ => false
  end.

(** [os.path.samefile]: [os.stat] on both paths, then the comparison of
    device and inode.  Directories have no hard links, so two directory
    paths are the same directory only when they are the same path. *)
Definition samefile (s : tree) (p q : path) : result bool :=
  match s !! p, s !! q with
  | Some (File i _), Some (File j _) => Ok (bool_decide (i = j))
  | Some (Dir _), Some (Dir _) => Ok (bool_decide (p = q))
  | Some _, Some _ => Ok false
  | _, _ => Raise FileNotFoundError
  end.

Definition getmtime (s : tree) (p : path) : result Z :=
  match s !! p with
  | Some (File _ d) => Ok (mtime d)
  | Some (Dir mt) => Ok mt
  | None => Raise FileNotFoundError
  end.

(** [os.remove] *)
Definition remove (s : tree) (p : path) : result tree :=
  match s !! p with
  | Some (File _ _) => Ok (delete p s)
  | Some (Dir _) => Raise OtherOSError
  | None => Raise FileNotFoundError
  end.

(** The ancestors of [p], root first, and [p] itself. *)
Definition prefixes (p : path) : list path :=
  (fun k => take k p) <$> seq 0 (S (length p)).

Fixpoint mkdir_each (now : Z) (s : tree) (ps : list path) : result tree :=
  match ps with
  | [] => Ok s
  | q :: ps' =>
      match s !! q with
      | None => mkdir_each now (<[q := Dir now]> s) ps'
      | Some (Dir _) => mkdir_each now s ps'
      | Some (File _ _) => Raise OtherOSError
      end
  end.

(** [os.makedirs(p, exist_ok=...)] at clock reading [now]: every missing
    ancestor is created; a regular file on the way, or [p] itself being
    there already (unless it is a directory and [exist_ok] is set),
    raises.  A call that raises has created nothing. *)
Definition makedirs (now : Z) (s : tree) (p : path) (exist_ok : bool)
  : result tree :=
  if exists_ s p && negb (exist_ok && isdir s p) then Raise OtherOSError
  else mkdir_each now s (prefixes p).

(** An open binary file: its data, the read position and the number of
    [read] calls made so far. *)
Record open_file := OpenFile {
  of_data : file_data;
  of_pos : nat;
  of_reads : nat
}.

(** [open(p, 'rb')] *)
Definition open_rb (s : tree) (p : path) : result open_file :=
  match s !! p with
  | Some (File _ d) =>
      if readable d then Ok (OpenFile d 0 0) else Raise OtherOSError
  | Some (Dir _) => Raise OtherOSError
  | None => Raise FileNotFoundError
  end.

(** [f.read(n)]: up to [n] bytes, fewer only at end of file; the device
    fails on the read whose index is [read_error_at]. *)
Definition read (f : open_file) (n : nat) : result (list byte * open_file) :=
  if bool_decide (read_error_at (of_data f) = Some (of_reads f))
  then Raise OtherOSError
  else
    let buf := take n (drop (of_pos f) (content (of_data f))) in
    Ok (buf, OpenFile (of_data f) (of_pos f + length buf) (S (of_reads f))).

End FS.
Export FS.

(** ** Library functions the script calls *)

(** [datetime.datetime] *)
Record datetime := DateTime {
  year : N;
  month : N;
  day : N;
  hour : N;
  minute : N;
  second : N
}.

(** The library calls whose results the script only passes on, and the
    two things the file-system model leaves to the platform: what
    [os.stat] reports as the size of a directory and what [shutil.move]
    does with a whole directory tree. *)
Class Platform := {
  (** [hashlib.md5(data).hexdigest()] *)
  md5_hexdigest : list byte -> string;
  (** [datetime.datetime.strptime(s, fmt)]; [None] is [ValueError] *)
  strptime : string -> string -> option datetime;
  (** [datetime.datetime.fromtimestamp(t)]; [None] is an exception *)
  fromtimestamp : Z -> option datetime;
  (** [PIL.ExifTags.TAGS]: the names of the numeric EXIF tags *)
  TAGS : N -> option string;
  (** the clock reading stamped on the directories a run creates *)
  clock : Z;
  (** [os.stat(d).st_size] of a directory *)
  dir_size : tree -> path -> nat;
  (** [shutil.move(src, dst)] when [src] is a directory *)
  move_dir : tree -> path -> path -> result tree
}.

(** [str(n)] for a natural number is its decimal numeral. *)
Definition str (n : nat) : string := pretty n.

(** [strftime('%m')] and [strftime('%d')]: two digits, zero padded. *)
Definition two_digits (n : N) : string :=
  if bool_decide (n < 10)%N then "0" +:+ pretty n else pretty n.

(** [s.lower()] on ASCII text *)
Definition lower_ascii (c : ascii) : ascii :=
  let n := nat_of_ascii c in
  if bool_decide (65 <= n <= 90) then ascii_of_nat (n + 32) else c.

Fixpoint lower (s : string) : string :=
  match s with
  | EmptyString => EmptyString
  | String c s' => String (lower_ascii c) (lower s')
  end.

(** ** Python dictionaries (insertion ordered) *)

Module Dict.

Section Dict.
Context {K V : Type} `{EqDecision K}.

Fixpoint get (k : K) (d : list (K * V)) : option V :=
  match d with
  | [] => None
  | (k', v) :: d' => if decide (k = k') then Some v else get k d'
  end.

(** [d[k] = v]: an existing key keeps its place. *)
Fixpoint set (k : K) (v : V) (d : list (K * V)) : list (K * V) :=
  match d with
  | [] => [(k, v)]
  | (k', v') :: d' =>
      if decide (k = k') then (k, v) :: d' else (k', v') :: set k v d'
  end.

Definition keys (d : list (K * V)) : list K := fst <$> d.

End Dict.

(** [if k not in d: d[k] = []] followed by [d[k].append(x)] *)
Definition append {K A : Type} `{EqDecision K} (k : K) (x : A)
    (d : list (K * list A)) : list (K * list A) :=
  match get k d with
  | None => set k [x] d
  | Some l => set k (l ++ [x]) d
  end.

End Dict.

(** ** The program *)

Section Program.
Context `{Platform}.

(** [os.path.getsize] *)
Definition getsize (s : tree) (p : path) : result nat :=
  match s !! p with
  | Some (File _ d) => Ok (length (content d))
  | Some (Dir _) => Ok (dir_size s p)
  | None => Raise FileNotFoundError
  end.

(** [shutil.move(src, dst)].  For a regular file: into [dst] when that is
    a directory (refusing to replace an entry there), else
    [os.rename(src, dst)], which replaces a regular file at [dst], does
    nothing when both names are links of one file, and fails when the
    directory of [dst] is missing; the copy that [shutil.move] falls back
    to fails where the rename did. *)
Definition shutil_move (s : tree) (src dst : path) : result tree :=
  match s !! src with
  | None => Raise FileNotFoundError
  | Some (Dir _) => move_dir s src dst
  | Some (File i d) =>
      match s !! dst with
      | Some (Dir _) =>
          let real_dst := join dst (basename src) in
          if exists_ s real_dst then Raise OtherOSError
          else Ok (<[real_dst := File i d]> (delete src s))
      | Some (File j _) =>
          if bool_decide (i = j) then Ok s
          else Ok (<[dst := File i d]> (delete src s))
      | None =>
          if isdir s (dirname dst)
          then Ok (<[dst := File i d]> (delete src s))
          else Raise OtherOSError
      end
  end.

(** *** Part 2: duplicate detection *)

Definition default_blocksize : nat := 64 * 1024.

(** The [while len(buf) > 0] loop of [calculate_hash]; [hasher] holds
    the bytes fed to [hasher.update] so far.  [None]: out of fuel. *)
Fixpoint hash_loop (fuel blocksize : nat) (f : open_file)
    (hasher buf : list byte) : option (result (list byte)) :=
  match fuel with
  | 0 => None
  | S fuel' =>
      if bool_decide (0 < length buf) then
        match read f blocksize with
        | Ok (buf', f') => hash_loop fuel' blocksize f' (hasher ++ buf) buf'
        | Raise e => Some (Raise e)
        end
      else Some (Ok hasher)
  end.

(** The body of the [try] block.  The loop makes at most one pass per
    byte of the file and a last one, so its fuel is never used up
    ([hash_loop_spec]). *)
Definition hash_file (s : tree) (filepath : path) (blocksize : nat)
  : result string :=
  f ← open_rb s filepath;
  '(buf, f1) ← read f blocksize;
  fed ← default (Raise OverflowError)
        (hash_loop (S (length (content (of_data f)))) blocksize f1 [] buf);
  Ok (md5_hexdigest fed).

Definition calculate_hash (s : tree) (filepath : path) (blocksize : nat)
  : result (option string) :=
  match hash_file s filepath blocksize with
  | Ok digest => Ok (Some digest)
  | Raise e => if is_OSError e then Ok None else Raise e
  end.

(** A [for] loop whose body may raise. *)
Fixpoint for_each {A S : Type} (body : S -> A -> result S) (l : list A)
    (st : S) : result S :=
  match l with
  | [] => Ok st
  | x :: l' => st' ← body st x; for_each body l' st'
  end.

(** [try: body except (IOError, OSError): handler] *)
Definition except_OSError {A : Type} (body : result A) (handler : A)
  : result A :=
  match body with
  | Ok a => Ok a
  | Raise e => if is_OSError e then Ok handler else Raise e
  end.

(** First loop of [find_duplicates]: group by size. *)
Definition files_by_size (s : tree) (image_paths : list path)
  : result (list (nat * list path)) :=
  for_each (fun d filepath =>
    except_OSError
      (if exists_ s filepath then
         file_size ← getsize s filepath;
         Ok (Dict.append file_size filepath d)
       else Ok d)
      d) image_paths [].

(** Inner loop: group one size bucket by digest.  [if file_hash:] lets
    neither [None] nor the empty string through. *)
Definition files_by_hash (s : tree) (file_list : list path)
  : result (list (string * list path)) :=
  for_each (fun d filepath =>
    file_hash ← calculate_hash s filepath default_blocksize;
    match file_hash with
    | Some h =>
        if bool_decide (h <> "") then Ok (Dict.append h filepath d)
        else Ok d
    | None => Ok d
    end) file_list [].

(** [for file_hash, paths in files_by_hash.items(): if len(paths) > 1:
    duplicates[file_hash] = paths] *)
Definition store_groups (duplicates fbh : list (string * list path))
  : list (string * list path) :=
  foldl (fun dups '(file_hash, paths) =>
           if bool_decide (1 < length paths)
           then Dict.set file_hash paths dups else dups)
        duplicates fbh.

Definition find_duplicates (s : tree) (image_paths : list path)
  : result (list (string * list path)) :=
  fbs ← files_by_size s image_paths;
  for_each (fun duplicates '(size, file_list) =>
    if bool_decide (1 < length file_list) then
      fbh ← files_by_hash s file_list;
      Ok (store_groups duplicates fbh)
    else Ok duplicates) fbs [].

(** *** Part 3: duplicate handling *)

(** What a run did to the file system, in order: the successful
    [shutil.move] and [os.remove] calls. *)
Inductive fs_event :=
| Moved (src dst : path)
| Deleted (p : path).

(** The state [handle_duplicates] works on: the file system, its two
    counters, the lines still to be read from the console, and the log. *)
Record hd_state := HdState {
  hd_fs : tree;
  moved_count : nat;
  deleted_count : nat;
  stdin : list string;
  hd_log : list fs_event
}.

(** A loop over a state that survives an exception: [Some e] when the
    body raised [e]. *)
Fixpoint for_each_st {A S : Type} (body : S -> A -> S * option exn)
    (l : list A) (st : S) : S * option exn :=
  match l with
  | [] => (st, None)
  | x :: l' =>
      match body st x with
      | (st', None) => for_each_st body l' st'
      | (st', Some e) => (st', Some e)
      end
  end.

(** [while os.path.exists(new_path): new_path = f"{base}_{counter}{ext}";
    counter += 1].  [None]: out of fuel. *)
Fixpoint free_name_loop (fuel : nat) (s : tree) (base : path)
    (ext : string) (new_path : path) (counter : nat) : option path :=
  match fuel with
  | 0 => None
  | S fuel' =>
      if exists_ s new_path
      then free_name_loop fuel' s base ext (suffixed base counter ext)
             (S counter)
      else Some new_path
  end.

(** Body of the loop of the ["move"] branch.  A tree of [size s] entries
    leaves one of the first [size s + 1] suffixed names free, so the fuel
    of the collision loop is never used up ([free_name_found]). *)
Definition move_duplicate (target_folder : path) (st : hd_state)
    (dup_path : path) : hd_state * option exn :=
  let s := hd_fs st in
  if negb (exists_ s dup_path) then (st, None)
  else
    let dup_filename := basename dup_path in
    let new_path := join target_folder dup_filename in
    let '(base, ext) := splitext new_path in
    let new_path :=
      default new_path (free_name_loop (size s + 2) s base ext new_path 1) in
    match shutil_move s dup_path new_path with
    | Ok s' =>
        (HdState s' (S (moved_count st)) (deleted_count st) (stdin st)
           (hd_log st ++ [Moved dup_path new_path]), None)
    | Raise e => if is_OSError e then (st, None) else (st, Some e)
    end.

(** Body of the loop of the ["delete"] branch. *)
Definition delete_duplicate (st : hd_state) (dup_path : path)
  : hd_state * option exn :=
  let s := hd_fs st in
  if negb (exists_ s dup_path) then (st, None)
  else
    match remove s dup_path with
    | Ok s' =>
        (HdState s' (moved_count st) (S (deleted_count st)) (stdin st)
           (hd_log st ++ [Deleted dup_path]), None)
    | Raise e => if is_OSError e then (st, None) else (st, Some e)
    end.

(** Body of the loop over the groups. *)
Definition handle_group (action : string) (target_folder : path)
    (st : hd_state) (group : string * list path) : hd_state * option exn :=
  let '(hash_val, paths) := group in
  match paths with
  | [] => (st, Some IndexError)
  | original :: duplicates_to_process =>
      if bool_decide (duplicates_to_process = []) then (st, None)
      else if bool_decide (action = "list") then (st, None)
      else if bool_decide (action = "move") then
        for_each_st (move_duplicate target_folder) duplicates_to_process st
      else if bool_decide (action = "delete") then
        match stdin st with
        | [] => (st, Some EOFError)
        | line :: rest =>
            let st' := HdState (hd_fs st) (moved_count st)
                         (deleted_count st) rest (hd_log st) in
            let confirm := lower line in
            if bool_decide (confirm = "o")
            then for_each_st delete_duplicate duplicates_to_process st'
            else (st', None)
        end
      else (st, None)
  end.

(** [handle_duplicates(duplicate_groups, action, target_folder)] run on
    the file system [s] with [console] as the lines typed by the user;
    the second component of the result is the action in force after the
    preamble. *)
Definition handle_duplicates (s : tree) (console : list string)
    (duplicate_groups : list (string * list path)) (action : string)
    (target_folder : path) : hd_state * option exn * string :=
  let st := HdState s 0 0 console [] in
  if bool_decide (duplicate_groups = []) then (st, None, action)
  else
    let prepared :=
      if bool_decide (action = "move") && negb (exists_ s target_folder)
      then except_OSError
             (s' ← makedirs clock s target_folder false; Ok (s', action))
             (s, "list")
      else Ok (s, action) in
    match prepared with
    | Raise e => (st, Some e, action)
    | Ok (s0, action0) =>
        (for_each_st (handle_group action0 target_folder) duplicate_groups
           (HdState s0 0 0 console []), action0)
    end.

(** *** Part 4: photo sorting *)

(** Keys of [exif_data]: [TAGS.get(tag, tag)] is the name of the tag, or
    the number itself when the table has no name for it. *)
Inductive exif_key :=
| KName (name : string)
| KTag (tag : N).

Global Instance exif_key_eq_dec : EqDecision exif_key.
Proof. solve_decision. Defined.

Definition decoded (tag : N) : exif_key :=
  match TAGS tag with
  | Some name => KName name
  | None => KTag tag
  end.

(** Python truth value of a tag value. *)
Definition truthy (v : exif_value) : bool :=
  match v with
  | VStr str => bool_decide (str <> "")
  | VInt n => bool_decide (n <> 0%Z)
  | VBytes b => bool_decide (b <> [])
  end.

(** [a or b] on the results of two [dict.get] calls *)
Definition py_or (a b : option exif_value) : option exif_value :=
  match a with
  | Some v => if truthy v then a else b
  | None => b
  end.

(** [Image.open(filepath)] up to [image.close()]: the dictionary
    [exif_data]. *)
Definition read_exif_data (s : tree) (filepath : path)
  : result (list (exif_key * exif_value)) :=
  match s !! filepath with
  | Some (File _ d) =>
      if readable d then
        match image d with
        | OpenFails => Raise OtherOSError
        | NoGetexif => Ok []
        | HasGetexif ExifRaises => Raise ValueError
        | HasGetexif ExifNone => Ok []
        | HasGetexif (ExifDict info) =>
            Ok (foldl (fun exif_data '(tag, value) =>
                         Dict.set (decoded tag) value exif_data) [] info)
        end
      else Raise OtherOSError
  | Some (Dir _) => Raise OtherOSError
  | None => Raise FileNotFoundError
  end.

Definition exif_format : string := "%Y:%m:%d %H:%M:%S".

(** The first [try] block of [get_photo_date]: [Ok (Some d)] when it
    returns [d], [Ok None] when it falls through. *)
Definition exif_date (s : tree) (filepath : path)
  : result (option datetime) :=
  exif_data ← read_exif_data s filepath;
  let date_str :=
    py_or (Dict.get (KName "DateTimeOriginal") exif_data)
          (Dict.get (KName "DateTimeDigitized") exif_data) in
  match date_str with
  | Some v =>
      if truthy v then
        match v with
        | VStr text =>
            match strptime text exif_format with
            | Some d => Ok (Some d)
            | None => Ok None
            end
        | _ => Raise TypeError
        end
      else Ok None
  | None => Ok None
  end.

(** The second [try] block: the modification time. *)
Definition mtime_date (s : tree) (filepath : path) : option datetime :=
  match getmtime s filepath with
  | Ok timestamp => fromtimestamp timestamp
  | Raise _ => None
  end.

Definition get_photo_date (s : tree) (filepath : path) : option datetime :=
  match exif_date s filepath with
  | Ok (Some d) => Some d
  | Ok None | Raise _ => mtime_date s filepath
  end.

(** What [sort_photos] did with one path of its list. *)
Inductive sort_event :=
| Sorted (src dst : path)
| InPlace (p : path)
| Skipped (p : path).

Record sort_state := SortState {
  st_fs : tree;
  processed_count : nat;
  skipped_count : nat;
  st_log : list sort_event
}.

Definition skip (st : sort_state) (s : tree) (filepath : path)
  : sort_state :=
  SortState s (processed_count st) (S (skipped_count st))
    (st_log st ++ [Skipped filepath]).

(** The collision loop of [sort_photos].  [None]: out of fuel. *)
Fixpoint collision_loop (fuel : nat) (s : tree) (filepath base : path)
    (ext : string) (new_filepath : path) (counter : nat)
  : option (result path) :=
  match fuel with
  | 0 => None
  | S fuel' =>
      if exists_ s new_filepath then
        match samefile s filepath new_filepath with
        | Ok true => Some (Ok new_filepath)
        | Ok false | Raise FileNotFoundError =>
            collision_loop fuel' s filepath base ext
              (suffixed base counter ext) (S counter)
        | Raise e => Some (Raise e)
        end
      else Some (Ok new_filepath)
  end.

Definition day_folder_of (destination_base_folder : path)
    (photo_date : datetime) : path :=
  let year_folder := join destination_base_folder (pretty (year photo_date)) in
  let month_folder := join year_folder (two_digits (month photo_date)) in
  join month_folder (two_digits (day photo_date)).

(** Body of the loop of [sort_photos].  The fuel of the collision loop is
    never used up ([collision_found]). *)
Definition sort_one (destination_base_folder : path) (st : sort_state)
    (filepath : path) : sort_state * option exn :=
  let s := st_fs st in
  if negb (exists_ s filepath) then (skip st s filepath, None)
  else
    match get_photo_date s filepath with
    | Some photo_date =>
        let day_folder := day_folder_of destination_base_folder photo_date in
        match makedirs clock s day_folder true with
        | Raise e =>
            if is_OSError e then (skip st s filepath, None)
            else (st, Some e)
        | Ok s1 =>
            let filename := basename filepath in
            let new_filepath := join day_folder filename in
            let '(base, ext) := splitext new_filepath in
            match default (Ok new_filepath)
                    (collision_loop (size s1 + 2) s1 filepath base ext
                       new_filepath 1) with
            | Raise e =>
                (SortState s1 (processed_count st) (skipped_count st)
                   (st_log st), Some e)
            | Ok new_filepath =>
                if bool_decide (filepath = new_filepath)
                   && exists_ s1 new_filepath
                then (SortState s1 (processed_count st) (skipped_count st)
                        (st_log st ++ [InPlace filepath]), None)
                else
                  match shutil_move s1 filepath new_filepath with
                  | Ok s2 =>
                      (SortState s2 (S (processed_count st))
                         (skipped_count st)
                         (st_log st ++ [Sorted filepath new_filepath]), None)
                  | Raise e =>
                      if is_OSError e then (skip st s1 filepath, None)
                      else (SortState s1 (processed_count st)
                              (skipped_count st) (st_log st), Some e)
                  end
            end
        end
    | None => (skip st s filepath, None)
    end.

Definition sort_photos (s : tree) (image_paths : list path)
    (destination_base_folder : path) : sort_state * option exn :=
  let st := SortState s 0 0 [] in
  if bool_decide (image_paths = []) then (st, None)
  else
    let prepared :=
      if negb (exists_ s destination_base_folder)
      then makedirs clock s destination_base_folder false
      else Ok s in
    match prepared with
    | Raise e => if is_OSError e then (st, None) else (st, Some e)
    | Ok s0 =>
        for_each_st (sort_one destination_base_folder) image_paths
          (SortState s0 0 0 [])
    end.

End Program.

(** ** A sample platform

    A concrete instance of the library functions, for the worked examples:
    UTC as the local time zone, the strict reading of the EXIF date format,
    and a toy digest. *)

Definition digit_of (c : ascii) : option N :=
let n := N_of_ascii c in
if bool_decide (48 <= n <= 57)%N then Some (n - 48)%N else None.

Definition number2 (a b : ascii) : option N :=
x ← digit_of a; y ← digit_of b; Some (10 * x + y)%N.

Definition number4 (a b c d : ascii) : option N :=
x ← number2 a b; y ← number2 c d; Some (100 * x + y)%N.

Definition days_in_month (y m : N) : N :=
if bool_decide (m = 2)%N then
  if bool_decide ((y mod 4 = 0 /\ y mod 100 <> 0) \/ y mod 400 = 0)%N
  then 29%N else 28%N
else if bool_decide (m = 4 \/ m = 6 \/ m = 9 \/ m = 11)%N then 30%N
else 31%N.

(** ["YYYY:MM:DD HH:MM:SS"], every field zero padded. *)
Definition strptime_exif (text : string) : option datetime :=
match list_ascii_of_string text with
| [y1; y2; y3; y4; c1; m1; m2; c2; d1; d2; sp; h1; h2; c3; n1; n2; c4; s1; s2] =>
    y ← number4 y1 y2 y3 y4; m ← number2 m1 m2; d ← number2 d1 d2;
    hh ← number2 h1 h2; mm ← number2 n1 n2; ss ← number2 s1 s2;
    if bool_decide ([c1; c2; sp; c3; c4] = [":"; ":"; " "; ":"; ":"]%char
                    /\ (1 <= y /\ 1 <= m <= 12 /\ 1 <= d <= days_in_month y m
                        /\ hh < 24 /\ mm < 60 /\ ss < 62)%N)
    then Some (DateTime y m d hh mm ss) else None
| _ => None
end.

(** The civil date of a count of days since 1970-01-01. *)
Definition civil_from_days (days : Z) : Z * Z * Z :=
let z := (days + 719468)%Z in
let era := (z `div` 146097)%Z in
let doe := (z - era * 146097)%Z in
let yoe := ((doe - doe `div` 1460 + doe `div` 36524 - doe `div` 146096)
              `div` 365)%Z in
let doy := (doe - (365 * yoe + yoe `div` 4 - yoe `div` 100))%Z in
let mp := ((5 * doy + 2) `div` 153)%Z in
let d := (doy - (153 * mp + 2) `div` 5 + 1)%Z in
let m := (if bool_decide (mp < 10)%Z then mp + 3 else mp - 9)%Z in
let y := (yoe + era * 400 + (if bool_decide (m <= 2)%Z then 1 else 0))%Z in
(y, m, d).

Definition fromtimestamp_utc (t : Z) : option datetime :=
let '(y, m, d) := civil_from_days (t `div` 86400)%Z in
let r := (t `mod` 86400)%Z in
if bool_decide (1 <= y <= 9999)%Z then
  Some (DateTime (Z.to_N y) (Z.to_N m) (Z.to_N d) (Z.to_N (r `div` 3600))
          (Z.to_N ((r `mod` 3600) `div` 60)) (Z.to_N (r `mod` 60)))
else None.

(** A stand-in for MD5: the length of the data and its bytes in decimal. *)
Definition toy_digest (data : list byte) : string :=
foldl (fun acc b => acc +:+ "." +:+ pretty (Byte.to_N b))
  (pretty (length data)) data.

Definition exif_tag_name (tag : N) : option string :=
match tag with
| 271 => Some "Make"
| 272 => Some "Model"
| 274 => Some "Orientation"
| 306 => Some "DateTime"
| 36867 => Some "DateTimeOriginal"
| 36868 => Some "DateTimeDigitized"
| _ => None
end%N.

Definition sample_platform : Platform := {|
  md5_hexdigest := toy_digest;
  strptime := fun text fmt =>
    if bool_decide (fmt = "%Y:%m:%d %H:%M:%S") then strptime_exif text else None;
  fromtimestamp := fromtimestamp_utc;
  TAGS := exif_tag_name;
  clock := 1700000000;
  dir_size := fun _ _ => 4096;
  move_dir := fun _ _ _ => Raise OtherOSError
|}.

(** ** Sample files and trees *)

Definition plain (bytes : list byte) (mt : Z) : file_data :=
FileData bytes true None mt NoGetexif.

Definition photo (bytes : list byte) (mt : Z) (taken : string) : file_data :=
FileData bytes true None mt (HasGetexif (ExifDict [(36867%N, VStr taken)])).

(** Two copies of one picture in [/pics]. *)
Definition dup_tree : tree :=
<[ ["pics"; "b.jpg"] := File 2 (plain [x58] 1546387200) ]>
(<[ ["pics"; "a.jpg"] := File 1 (plain [x58] 1546387200) ]>
(<[ ["pics"] := Dir 0 ]> (<[ [] := Dir 0 ]> ∅))).

(** A destination tree [/out] that already holds two pictures taken on
    2020-05-17, and sources in [/in], [/in2], [/in3]: [/in/x.jpg] is a hard
    link of [/out/2020/05/17/x_1.jpg], [/in2/x.jpg] a hard link of
    [/out/2020/05/17/x.jpg], and [/in3/x.jpg] a third picture of that day. *)
Definition day_17 : path := ["out"; "2020"; "05"; "17"].

Definition album : tree :=
list_to_map [
  ([], Dir 0);
  (["out"], Dir 0);
  (["out"; "2020"], Dir 0);
  (["out"; "2020"; "05"], Dir 0);
  (day_17, Dir 0);
  (day_17 ++ ["x.jpg"], File 1 (photo [x41] 1600000000 "2020:05:17 10:00:00"));
  (day_17 ++ ["x_1.jpg"], File 2 (photo [x42] 1600000000 "2020:05:17 11:00:00"));
  (["in"], Dir 0);
  (["in"; "x.jpg"], File 2 (photo [x42] 1600000000 "2020:05:17 11:00:00"));
  (["in2"], Dir 0);
  (["in2"; "x.jpg"], File 1 (photo [x41] 1600000000 "2020:05:17 10:00:00"));
  (["in3"], Dir 0);
  (["in3"; "x.jpg"], File 3 (photo [x43] 1600000000 "2020:05:17 12:00:00"));
  (["in3"; "old.jpg"], File 4 (photo [x44] 1600000000 "0999:01:01 00:00:00"));
  (["in3"; "scan.png"], File 5 (plain [x45] 1546387200))
].

(** A picture whose modification time lies beyond the years a
    [datetime] can hold (1000000000000 s after the epoch, year 33658). *)
Definition far_future : tree :=
<[ ["pics"; "late.jpg"] := File 1 (plain [x58] 1000000000000) ]>
(<[ ["pics"] := Dir 0 ]> (<[ [] := Dir 0 ]> ∅)).



(** ** Proofs *)

Section Hashing.
Context `{Platform}.

Lemma take_drop_nil {A} (n : nat) (l : list A) :
  0 < n -> take n l = [] -> l = [].
Proof. destruct n, l; simpl; intros; (lia || congruence). Qed.

(** The loop feeds the rest of the file to the hasher, block by block,
    unless a read fails; it never runs out of fuel. *)
Lemma hash_loop_spec (bs : nat) (d : file_data) :
  0 < bs ->
  forall fuel pos0 reads hasher,
    length (drop pos0 (content d)) < fuel ->
    let buf := take bs (drop pos0 (content d)) in
    hash_loop fuel bs (OpenFile d (pos0 + length buf) reads) hasher buf
      = Some (Ok (hasher ++ drop pos0 (content d)))
    \/ (is_Some (read_error_at d)
        /\ hash_loop fuel bs (OpenFile d (pos0 + length buf) reads) hasher buf
           = Some (Raise OtherOSError)).
Proof.
  intros Hbs. induction fuel as [|fuel IH]; intros pos0 reads hasher Hfuel buf.
  { lia. }
  simpl. case_bool_decide as Hlen.
  - unfold read; simpl. case_bool_decide as Herr.
    { right. split; [rewrite Herr; eauto | done]. }
    set (pos1 := pos0 + length buf).
    assert (Hsplit : drop pos0 (content d) = buf ++ drop pos1 (content d)).
    { unfold pos1, buf. rewrite <- drop_drop.
      rewrite <- (take_drop bs (drop pos0 (content d))) at 1.
      f_equal. rewrite length_take.
      destruct (decide (bs <= length (drop pos0 (content d)))) as [Hle|Hgt].
      - by rewrite Nat.min_l.
      - rewrite Nat.min_r by lia.
        rewrite !drop_ge; [done | lia | lia]. }
    assert (Hlt : length (drop pos1 (content d)) < fuel).
    { apply (f_equal length) in Hsplit. rewrite length_app in Hsplit. lia. }
    destruct (IH pos1 (S reads) (hasher ++ buf) Hlt) as [IH1 | [? IH1]].
    + left. rewrite IH1. by rewrite Hsplit, app_assoc.
    + right. split; [done|]. by rewrite IH1.
  - left. assert (buf = []) as Hbuf by (destruct buf; simpl in *; [done | lia]).
    apply take_drop_nil in Hbuf; [|done]. by rewrite Hbuf, app_nil_r.
Qed.

Local Arguments hash_loop : simpl never.

(** The hash of a file that opens: the digest of all its bytes, or an
    [OSError] from a failed read. *)
Lemma hash_file_spec (s : tree) (p : path) (bs : nat) i d :
  0 < bs -> s !! p = Some (File i d) -> readable d = true ->
  hash_file s p bs = Ok (md5_hexdigest (content d))
  \/ (is_Some (read_error_at d) /\ hash_file s p bs = Raise OtherOSError).
Proof.
  intros Hbs Hp Hr. unfold hash_file, open_rb. rewrite Hp, Hr. simpl.
  unfold read; simpl. case_bool_decide as Herr.
  { right. split; [rewrite Herr; eauto | done]. }
  simpl. rewrite drop_0.
  destruct (hash_loop_spec bs d Hbs (S (length (content d))) 0 1 [])
    as [Hl | [? Hl]].
  { rewrite drop_0. lia. }
  - left. rewrite drop_0 in Hl. simpl in Hl. by rewrite Hl.
  - right. split; [done|]. rewrite drop_0 in Hl. simpl in Hl. by rewrite Hl.
Qed.

Lemma default_blocksize_pos : 0 < default_blocksize.
Proof. unfold default_blocksize. lia. Qed.

(** What [calculate_hash] returns, as a function of the file system. *)
Lemma calculate_hash_cases (s : tree) (p : path) (bs : nat) :
  0 < bs ->
  (exists i d, s !! p = Some (File i d) /\ readable d = true
               /\ calculate_hash s p bs = Ok (Some (md5_hexdigest (content d))))
  \/ (calculate_hash s p bs = Ok None
      /\ match s !! p with
         | Some (File _ d) => readable d = false \/ is_Some (read_error_at d)
         | _ => True
         end).
Proof.
  intros Hbs. unfold calculate_hash.
  destruct (s !! p) as [[i d|mt]|] eqn:Hp.
  - destruct (readable d) eqn:Hr.
    + destruct (hash_file_spec s p bs i d Hbs Hp Hr) as [-> | [? ->]].
      * left. eauto.
      * right. simpl. auto.
    + right. unfold hash_file, open_rb. rewrite Hp, Hr. simpl. auto.
  - right. unfold hash_file, open_rb. rewrite Hp. simpl. auto.
  - right. unfold hash_file, open_rb. rewrite Hp. simpl. auto.
Qed.

(** C9. [calculate_hash] never raises: it returns the digest of the whole
    content of a regular file that can be opened and read to its end in
    64 KiB blocks, and [None] for a path that is missing, is a directory,
    cannot be opened or fails while being read. *)
Theorem calculate_hash_digest_or_none (s : tree) (filepath : path) :
  ((exists i d,
      s !! filepath = Some (File i d) /\ readable d = true
      /\ calculate_hash s filepath default_blocksize
         = Ok (Some (md5_hexdigest (content d))))
   \/ (calculate_hash s filepath default_blocksize = Ok None
       /\ match s !! filepath with
          | Some (File _ d) => readable d = false \/ is_Some (read_error_at d)
          | _ => True
          end))
  /\ (forall i d,
        s !! filepath = Some (File i d) -> readable d = true ->
        read_error_at d = None ->
        calculate_hash s filepath default_blocksize
        = Ok (Some (md5_hexdigest (content d))))
  /\ (forall i d,
        s !! filepath = Some (File i d) ->
        readable d = false \/ read_error_at d = Some 0 ->
        calculate_hash s filepath default_blocksize = Ok None)
  /\ (isfile s filepath = false ->
      calculate_hash s filepath default_blocksize = Ok None).
Proof.
  pose proof (calculate_hash_cases s filepath default_blocksize
                default_blocksize_pos) as Hc.
  split_and!.
  - done.
  - intros i d Hp Hr He.
    destruct Hc as [(i' & d' & Hp' & _ & Hc) | [_ Hc]].
    + rewrite Hp in Hp'. by injection Hp' as <- <-.
    + rewrite Hp, He in Hc. destruct Hc as [Hc | [? Hc]]; congruence.
  - intros i d Hp Hbad. unfold calculate_hash, hash_file, open_rb.
    rewrite Hp. destruct (readable d) eqn:Hr; [|done].
    destruct Hbad as [?|Hbad]; [congruence|]. simpl.
    unfold read. simpl. by rewrite bool_decide_true.
  - unfold isfile, calculate_hash, hash_file, open_rb.
    by destruct (s !! filepath) as [[i d|mt]|].
Qed.

End Hashing.

(** *** Dictionaries *)

Section DictFacts.
Context {K V : Type} `{EqDecision K}.
Implicit Types (d : list (K * V)) (k : K) (v : V).

Lemma get_set d k k' v :
  Dict.get k' (Dict.set k v d) = if decide (k' = k) then Some v else Dict.get k' d.
Proof.
  induction d as [|[k0 v0] d IH]; simpl.
  - repeat case_decide; congruence.
  - destruct (decide (k = k0)) as [->|Hne]; simpl.
    + repeat case_decide; congruence.
    + rewrite IH. repeat case_decide; congruence.
Qed.

Lemma get_None_keys d k : Dict.get k d = None <-> k ∉ Dict.keys d.
Proof.
  unfold Dict.keys. induction d as [|[k0 v0] d IH]; simpl.
  - split; [intros _; apply not_elem_of_nil | done].
  - rewrite not_elem_of_cons, <- IH. case_decide; split; intros; try done.
    + tauto.
    + tauto.
Qed.

Lemma keys_set d k v :
  Dict.keys (Dict.set k v d)
  = match Dict.get k d with
    | Some _ => Dict.keys d
    | None => Dict.keys d ++ [k]
    end.
Proof.
  induction d as [|[k0 v0] d IH]; simpl; [done|].
  destruct (decide (k = k0)) as [->|Hne]; simpl; [done|].
  change (Dict.keys ((k0, v0) :: Dict.set k v d))
    with (k0 :: Dict.keys (Dict.set k v d)).
  rewrite IH. by destruct (Dict.get k d).
Qed.

Lemma keys_set_NoDup d k v :
  NoDup (Dict.keys d) -> NoDup (Dict.keys (Dict.set k v d)).
Proof.
  intros Hnd. rewrite keys_set. destruct (Dict.get k d) eqn:Hg; [done|].
  apply NoDup_app. split_and!; [done | | apply NoDup_singleton].
  intros x Hx ->%list_elem_of_singleton. by apply get_None_keys in Hg.
Qed.

Lemma elem_of_get d k v :
  NoDup (Dict.keys d) -> (k, v) ∈ d <-> Dict.get k d = Some v.
Proof.
  unfold Dict.keys. induction d as [|[k0 v0] d IH]; simpl; intros Hnd.
  - split; [by intros ?%elem_of_nil | done].
  - apply NoDup_cons in Hnd as [Hk0 Hnd]. rewrite elem_of_cons, (IH Hnd).
    case_decide as Hk.
    + subst k0. split.
      * intros [Heq|Hg]; [congruence|].
        exfalso. apply Hk0. apply list_elem_of_fmap.
        exists (k, v). split; [done|]. by apply IH.
      * intros [= ->]. by left.
    + split; [|by right]. intros [Heq|Hg]; [congruence | done].
Qed.

End DictFacts.

Section Grouping.
Context {K A : Type} `{EqDecision K}.
Variable key : A -> option K.

(** Grouping loop: every element with a key is appended to its bucket. *)
Definition group_step (d : list (K * list A)) (x : A) : list (K * list A) :=
  match key x with
  | Some k => Dict.append k x d
  | None => d
  end.

Lemma get_append (d : list (K * list A)) k k' x :
  Dict.get k' (Dict.append k x d)
  = if decide (k' = k) then Some (default [] (Dict.get k d) ++ [x])
    else Dict.get k' d.
Proof.
  unfold Dict.append. destruct (Dict.get k d) eqn:Hg; rewrite get_set; simpl;
    by case_decide.
Qed.

Lemma keys_group_NoDup (l : list A) (d : list (K * list A)) :
  NoDup (Dict.keys d) -> NoDup (Dict.keys (foldl group_step d l)).
Proof.
  revert d. induction l as [|x l IH]; intros d Hnd; simpl; [done|].
  apply IH. unfold group_step, Dict.append.
  destruct (key x); [|done]. destruct (Dict.get k d); by apply keys_set_NoDup.
Qed.

(** A bucket holds, in the order of the list, the elements of its key. *)
Lemma get_group (l : list A) (d : list (K * list A)) (k : K) :
  Dict.get k (foldl group_step d l)
  = match filter (fun x => key x = Some k) l with
    | [] => Dict.get k d
    | x :: xs => Some (default [] (Dict.get k d) ++ x :: xs)
    end.
Proof.
  revert d. induction l as [|x l IH]; intros d; simpl; [done|].
  rewrite IH, filter_cons. unfold group_step.
  destruct (key x) as [k'|] eqn:Hk.
  - rewrite get_append. destruct (decide (k = k')) as [->|Hne].
    + rewrite decide_True by done. simpl.
      destruct (filter _ l); by rewrite <- ?app_assoc.
    + rewrite decide_False by congruence. done.
  - rewrite decide_False by congruence. done.
Qed.

Lemma get_group_nil (l : list A) (k : K) (g : list A) :
  Dict.get k (foldl group_step [] l) = Some g ->
  g = filter (fun x => key x = Some k) l.
Proof.
  rewrite get_group. simpl. destruct (filter _ l); [done|]. by intros [= <-].
Qed.

End Grouping.

(** *** Duplicate detection *)

Section Duplicates.
Context `{Platform}.

(** The size under which the first loop files a path, if any. *)
Definition size_of (s : tree) (p : path) : option nat :=
  if exists_ s p then
    match getsize s p with
    | Ok n => Some n
    | Raise _ => None
    end
  else None.

(** The digest under which the second loop files a path, if any. *)
Definition digest_of (s : tree) (p : path) : option string :=
  match calculate_hash s p default_blocksize with
  | Ok (Some h) => if bool_decide (h <> "") then Some h else None
  | _ => None
  end.

Lemma for_each_Ok {A S : Type} (body : S -> A -> result S) (g : S -> A -> S)
    (l : list A) (st : S) :
  (forall st x, x ∈ l -> body st x = Ok (g st x)) ->
  for_each body l st = Ok (foldl g st l).
Proof.
  revert st. induction l as [|x l IH]; intros st Hb; simpl; [done|].
  rewrite Hb by left. simpl. apply IH. intros. apply Hb. by right.
Qed.

Lemma files_by_size_eq (s : tree) (l : list path) :
  files_by_size s l = Ok (foldl (group_step (size_of s)) [] l).
Proof.
  apply for_each_Ok. intros d p _. unfold group_step, size_of, getsize, exists_.
  destruct (s !! p) as [[i fd|mt]|] eqn:Hp.
  - by rewrite bool_decide_true by eauto.
  - by rewrite bool_decide_true by eauto.
  - rewrite bool_decide_false; [done|]. by intros [? ?].
Qed.

Lemma calculate_hash_Ok (s : tree) (p : path) :
  exists r, calculate_hash s p default_blocksize = Ok r.
Proof.
  destruct (calculate_hash_cases s p default_blocksize default_blocksize_pos)
    as [(i & d & _ & _ & ->) | [-> _]]; eauto.
Qed.

Lemma files_by_hash_eq (s : tree) (l : list path) :
  files_by_hash s l = Ok (foldl (group_step (digest_of s)) [] l).
Proof.
  apply for_each_Ok. intros d p _. unfold group_step, digest_of.
  destruct (calculate_hash_Ok s p) as [r ->]. simpl.
  destruct r as [h|]; [|done]. by case_bool_decide.
Qed.

(** What a group of the result must look like. *)
Definition is_group (s : tree) (l : list path) (h : string) (g : list path)
  : Prop :=
  1 < length g
  /\ exists sz, g = filter (fun p => digest_of s p = Some h
                                    /\ size_of s p = Some sz) l.

Lemma store_groups_inv (P : string -> list path -> Prop)
    (dups fbh : list (string * list path)) :
  NoDup (Dict.keys dups) ->
  (forall h g, Dict.get h dups = Some g -> P h g) ->
  (forall h g, (h, g) ∈ fbh -> 1 < length g -> P h g) ->
  NoDup (Dict.keys (store_groups dups fbh))
  /\ forall h g, Dict.get h (store_groups dups fbh) = Some g -> P h g.
Proof.
  unfold store_groups. revert dups.
  induction fbh as [|[h0 g0] fbh IH]; intros dups Hnd Hd Hf; simpl; [done|].
  apply IH.
  - case_bool_decide; [by apply keys_set_NoDup | done].
  - intros h g. case_bool_decide as Hlen; [|by apply Hd].
    rewrite get_set. case_decide as Hh; [|by apply Hd].
    intros [= <-]. subst h. apply Hf; [by left | done].
  - intros h g Hin. apply Hf. by right.
Qed.

Lemma find_duplicates_groups (s : tree) (l : list path) :
  exists groups,
    find_duplicates s l = Ok groups
    /\ NoDup (Dict.keys groups)
    /\ forall h g, Dict.get h groups = Some g -> is_group s l h g.
Proof.
  unfold find_duplicates. rewrite files_by_size_eq. simpl.
  set (fbs := foldl (group_step (size_of s)) [] l).
  assert (Hfbs : forall sz fl, (sz, fl) ∈ fbs ->
                   fl = filter (fun p => size_of s p = Some sz) l).
  { intros sz fl Hin. apply get_group_nil. apply elem_of_get; [|done].
    apply keys_group_NoDup. constructor. }
  clearbody fbs.
  cut (forall dups,
         NoDup (Dict.keys dups) ->
         (forall h g, Dict.get h dups = Some g -> is_group s l h g) ->
         exists groups,
           for_each (fun duplicates '(_, file_list) =>
                       if bool_decide (1 < length file_list) then
                         fbh ← files_by_hash s file_list;
                         Ok (store_groups duplicates fbh)
                       else Ok duplicates) fbs dups = Ok groups
           /\ NoDup (Dict.keys groups)
           /\ forall h g, Dict.get h groups = Some g -> is_group s l h g).
  { intros Hcut. apply Hcut; [constructor | done]. }
  induction fbs as [|[sz fl] fbs IH]; intros dups Hnd Hd; simpl; [eauto|].
  case_bool_decide as Hlen; simpl.
  - rewrite files_by_hash_eq. simpl.
    set (fbh := foldl (group_step (digest_of s)) [] fl).
    destruct (store_groups_inv (is_group s l) dups fbh Hnd Hd) as [Hnd' Hd'].
    { intros h g Hin Hg. split; [done|]. exists sz.
      apply elem_of_get in Hin; [|apply keys_group_NoDup; constructor].
      apply get_group_nil in Hin. rewrite Hin.
      rewrite (Hfbs sz fl) by left. apply list_filter_filter. }
    apply IH; [|done|done]. intros. apply Hfbs. by right.
  - apply IH; [|done|done]. intros. apply Hfbs. by right.
Qed.

End Duplicates.

Section Partition.
Context `{Platform}.

Lemma size_of_Some (s : tree) (p : path) (sz : nat) :
  size_of s p = Some sz <-> getsize s p = Ok sz.
Proof.
  unfold size_of, getsize, exists_.
  destruct (s !! p) as [[i fd|mt]|] eqn:Hp.
  - rewrite bool_decide_true by eauto. split; congruence.
  - rewrite bool_decide_true by eauto. split; congruence.
  - rewrite bool_decide_false by (by intros [? ?]). split; congruence.
Qed.

Lemma digest_of_Some (s : tree) (p : path) (h : string) :
  digest_of s p = Some h
  <-> calculate_hash s p default_blocksize = Ok (Some h) /\ h <> "".
Proof.
  unfold digest_of.
  destruct (calculate_hash s p default_blocksize) as [[h'|]|e].
  - case_bool_decide as Hh.
    + split; [by intros [= <-] | by intros [[= <-] _]].
    + split; [done | intros [[= <-] ?]; done].
  - split; [done | by intros [? _]].
  - split; [done | by intros [? _]].
Qed.

(** C2. [find_duplicates] returns, without raising, a mapping with one
    entry per digest in which every group has at least two members and
    is exactly the sub-list, in the order of the input list, of the input
    paths of one size and one digest (so its first member is the first
    such path met, and all its members have that size and digest), and in
    which no path belongs to the groups of two different digests. *)
Theorem find_duplicates_partition (s : tree) (image_paths : list path) :
  exists duplicates,
    find_duplicates s image_paths = Ok duplicates
    /\ NoDup (Dict.keys duplicates)
    /\ (forall h g, (h, g) ∈ duplicates ->
          2 <= length g
          /\ exists sz,
               g = filter (fun p =>
                             calculate_hash s p default_blocksize = Ok (Some h)
                             /\ getsize s p = Ok sz) image_paths
               /\ forall p, p ∈ g ->
                    p ∈ image_paths
                    /\ getsize s p = Ok sz
                    /\ calculate_hash s p default_blocksize = Ok (Some h))
    /\ (forall h g h' g' p,
          (h, g) ∈ duplicates -> (h', g') ∈ duplicates ->
          p ∈ g -> p ∈ g' -> h = h' /\ g = g').
Proof.
  destruct (find_duplicates_groups s image_paths) as (groups & Heq & Hnd & Hg).
  exists groups. split_and!; [done | done | |].
  - intros h g Hin. apply elem_of_get in Hin; [|done].
    destruct (Hg h g Hin) as [Hlen [sz Hf]].
    assert (Hne : h <> "").
    { destruct g as [|p g']; [simpl in Hlen; lia|].
      assert (Hp : p ∈ p :: g') by left. rewrite Hf in Hp.
      apply list_elem_of_filter in Hp as [[Hd _] _].
      by apply digest_of_Some in Hd as [_ ?]. }
    assert (Hf' : g = filter (fun p =>
               calculate_hash s p default_blocksize = Ok (Some h)
               /\ getsize s p = Ok sz) image_paths).
    { rewrite Hf. apply list_filter_iff. intros p.
      rewrite digest_of_Some, size_of_Some. tauto. }
    split; [lia|]. exists sz. split; [done|].
    intros p Hp. rewrite Hf' in Hp.
    apply list_elem_of_filter in Hp. tauto.
  - intros h g h' g' p Hin Hin' Hp Hp'.
    apply elem_of_get in Hin; [|done]. apply elem_of_get in Hin'; [|done].
    destruct (Hg h g Hin) as [_ [sz Hf]].
    destruct (Hg h' g' Hin') as [_ [sz' Hf']].
    rewrite Hf in Hp. rewrite Hf' in Hp'.
    apply list_elem_of_filter in Hp as [[Hd _] _].
    apply list_elem_of_filter in Hp' as [[Hd' _] _].
    assert (h = h') by congruence. subst h'. split; [done|]. congruence.
Qed.

End Partition.


(** *** Date resolution *)

Section DateResolver.
Context `{Platform}.

(** The value a file's EXIF block gives for the tag called [name]:
    [exif_data[decoded] = value] runs for every entry of the block in
    turn, so of several entries whose numeric tags carry that name the
    last one is the one that stays. *)
Fixpoint tag_value (info : list (N * exif_value)) (name : string)
  : option exif_value :=
  match info with
  | [] => None
  | (tag, value) :: rest =>
      match tag_value rest name with
      | Some v => Some v
      | None => if decide (TAGS tag = Some name) then Some value else None
      end
  end.

Lemma get_exif_data (info : list (N * exif_value)) (name : string)
    (acc : list (exif_key * exif_value)) :
  Dict.get (KName name)
    (foldl (fun exif_data '(tag, value) =>
              Dict.set (decoded tag) value exif_data) acc info)
  = match tag_value info name with
    | Some v => Some v
    | None => Dict.get (KName name) acc
    end.
Proof.
  revert acc. induction info as [|[tag value] rest IH]; intros acc; simpl.
  { done. }
  rewrite IH. destruct (tag_value rest name) as [v|]; [done|].
  rewrite get_set. unfold decoded.
  destruct (TAGS tag) as [n|]; repeat case_decide; congruence.
Qed.

(** The dictionary [exif_data] of a readable image with an EXIF block
    holds, under each name, the value the block gives for it. *)
Lemma read_exif_data_tags (s : tree) (filepath : path) i d info :
  s !! filepath = Some (File i d) -> readable d = true ->
  image d = HasGetexif (ExifDict info) ->
  exists exif_data,
    read_exif_data s filepath = Ok exif_data
    /\ forall name, Dict.get (KName name) exif_data = tag_value info name.
Proof.
  intros Hp Hr Hi. unfold read_exif_data. rewrite Hp, Hr, Hi.
  eexists. split; [done|]. intros name. rewrite get_exif_data.
  by destruct (tag_value info name).
Qed.

Lemma truthy_str (text : string) : text <> "" -> truthy (VStr text) = true.
Proof. intros. unfold truthy. by rewrite bool_decide_true. Qed.

(** C5, as amended.  For a regular file that opens as an image with an
    EXIF block, [get_photo_date] returns the reading, under the fixed
    format ["%Y:%m:%d %H:%M:%S"], of the DateTimeOriginal tag, or of the
    DateTimeDigitized tag when the first is absent.  When the file cannot
    be read or opened as an image, has no EXIF block or one that cannot be
    decoded, holds neither tag, or the tag taken does not parse, it returns
    [datetime.fromtimestamp] of the modification time of the file; for a
    directory it returns that of the directory.  It returns [None] for a
    path that names nothing, and only when the modification time cannot be
    read or [fromtimestamp] cannot turn it into a date.  A date returned
    for a file is always the reading of one of the two tags or the
    modification time. *)
Theorem get_photo_date_order (s : tree) (filepath : path) :
  (forall i d info text dt,
     s !! filepath = Some (File i d) -> readable d = true ->
     image d = HasGetexif (ExifDict info) ->
     tag_value info "DateTimeOriginal" = Some (VStr text) -> text <> "" ->
     strptime text "%Y:%m:%d %H:%M:%S" = Some dt ->
     get_photo_date s filepath = Some dt)
  /\ (forall i d info text dt,
       s !! filepath = Some (File i d) -> readable d = true ->
       image d = HasGetexif (ExifDict info) ->
       tag_value info "DateTimeOriginal" = None ->
       tag_value info "DateTimeDigitized" = Some (VStr text) -> text <> "" ->
       strptime text "%Y:%m:%d %H:%M:%S" = Some dt ->
       get_photo_date s filepath = Some dt)
  /\ (forall i d,
       s !! filepath = Some (File i d) ->
       readable d = false \/ image d = OpenFails \/ image d = NoGetexif
       \/ image d = HasGetexif ExifRaises \/ image d = HasGetexif ExifNone ->
       get_photo_date s filepath = fromtimestamp (mtime d))
  /\ (forall i d info,
       s !! filepath = Some (File i d) ->
       image d = HasGetexif (ExifDict info) ->
       tag_value info "DateTimeOriginal" = None ->
       tag_value info "DateTimeDigitized" = None ->
       get_photo_date s filepath = fromtimestamp (mtime d))
  /\ (forall i d info text,
       s !! filepath = Some (File i d) ->
       image d = HasGetexif (ExifDict info) ->
       tag_value info "DateTimeOriginal" = Some (VStr text)
       \/ (tag_value info "DateTimeOriginal" = None
           /\ tag_value info "DateTimeDigitized" = Some (VStr text)) ->
       text <> "" ->
       strptime text "%Y:%m:%d %H:%M:%S" = None ->
       get_photo_date s filepath = fromtimestamp (mtime d))
  /\ (forall mt,
       s !! filepath = Some (Dir mt) ->
       get_photo_date s filepath = fromtimestamp mt)
  /\ (s !! filepath = None -> get_photo_date s filepath = None)
  /\ (get_photo_date s filepath = None ->
      getmtime s filepath = Raise FileNotFoundError
      \/ exists t, getmtime s filepath = Ok t /\ fromtimestamp t = None)
  /\ (forall i d dt,
       s !! filepath = Some (File i d) ->
       get_photo_date s filepath = Some dt ->
       fromtimestamp (mtime d) = Some dt
       \/ exists info text,
            readable d = true /\ image d = HasGetexif (ExifDict info)
            /\ (tag_value info "DateTimeOriginal" = Some (VStr text)
                \/ tag_value info "DateTimeDigitized" = Some (VStr text))
            /\ strptime text "%Y:%m:%d %H:%M:%S" = Some dt).
Proof.
  assert (Hfall : forall i d,
            s !! filepath = Some (File i d) ->
            mtime_date s filepath = fromtimestamp (mtime d)).
  { intros i d Hp. unfold mtime_date, getmtime. by rewrite Hp. }
  split_and!.
  - intros i d info text dt Hp Hr Hi Ho Hne Hparse.
    destruct (read_exif_data_tags s filepath i d info Hp Hr Hi) as (ed & Hed & Hget).
    unfold get_photo_date, exif_date, exif_format. rewrite Hed. simpl.
    unfold py_or. rewrite !Hget, Ho, !truthy_str, Hparse by done. done.
  - intros i d info text dt Hp Hr Hi Ho Hd Hne Hparse.
    destruct (read_exif_data_tags s filepath i d info Hp Hr Hi) as (ed & Hed & Hget).
    unfold get_photo_date, exif_date, exif_format. rewrite Hed. simpl.
    unfold py_or. rewrite !Hget, Ho, Hd, !truthy_str, Hparse by done. done.
  - intros i d Hp Hcase. rewrite <- (Hfall i d Hp).
    unfold get_photo_date, exif_date, read_exif_data. rewrite Hp.
    destruct (readable d); [|done].
    destruct Hcase as [? | [-> | [-> | [-> | ->]]]]; done.
  - intros i d info Hp Hi Ho Hd. rewrite <- (Hfall i d Hp).
    destruct (readable d) eqn:Hr.
    + destruct (read_exif_data_tags s filepath i d info Hp Hr Hi)
        as (ed & Hed & Hget).
      unfold get_photo_date, exif_date. rewrite Hed. simpl.
      unfold py_or. by rewrite !Hget, Ho, Hd.
    + unfold get_photo_date, exif_date, read_exif_data. by rewrite Hp, Hr.
  - intros i d info text Hp Hi Htag Hne Hparse. rewrite <- (Hfall i d Hp).
    destruct (readable d) eqn:Hr.
    + destruct (read_exif_data_tags s filepath i d info Hp Hr Hi)
        as (ed & Hed & Hget).
      unfold get_photo_date, exif_date, exif_format. rewrite Hed. simpl.
      unfold py_or. rewrite !Hget.
      destruct Htag as [Ho | [Ho Hd]].
      * rewrite Ho, !truthy_str, Hparse by done. done.
      * rewrite Ho, Hd, !truthy_str, Hparse by done. done.
    + unfold get_photo_date, exif_date, read_exif_data. by rewrite Hp, Hr.
  - intros mt Hp.
    unfold get_photo_date, exif_date, read_exif_data, mtime_date, getmtime.
    by rewrite Hp.
  - intros Hp.
    unfold get_photo_date, exif_date, read_exif_data, mtime_date, getmtime.
    by rewrite Hp.
  - intros Hnone.
    assert (Hm : mtime_date s filepath = None).
    { revert Hnone. unfold get_photo_date.
      destruct (exif_date s filepath) as [[dt|]|e]; done. }
    revert Hm. unfold mtime_date, getmtime.
    destruct (s !! filepath) as [[i d|mt]|]; [right | right | left]; eauto.
  - intros i d dt Hp. rewrite <- (Hfall i d Hp).
    unfold get_photo_date.
    destruct (exif_date s filepath) as [[dt'|]|e] eqn:Hexif; [|by left..].
    intros [= ->]. right. revert Hexif.
    unfold exif_date, read_exif_data, exif_format. rewrite Hp.
    destruct (readable d) eqn:Hr; [|done].
    destruct (image d) as [| |[| |info]] eqn:Hi; try done.
    pose proof (get_exif_data info "DateTimeOriginal" []) as Ho.
    pose proof (get_exif_data info "DateTimeDigitized" []) as Hd.
    simpl. rewrite Ho, Hd. clear Ho Hd. unfold py_or.
    intros Hres. exists info.
    destruct (tag_value info "DateTimeOriginal") as [vo|] eqn:Ho.
    + destruct (truthy vo) eqn:Hto.
      * rewrite Hto in Hres. destruct vo as [text| |]; try done.
        exists text. destruct (strptime text _) eqn:Hparse; [|done].
        injection Hres as ->. split_and!; auto.
      * destruct (tag_value info "DateTimeDigitized") as [vd|] eqn:Hd;
          simpl in Hres; [|done].
        destruct (truthy vd); [|done]. destruct vd as [text| |]; try done.
        exists text. destruct (strptime text _) eqn:Hparse; [|done].
        injection Hres as ->. split_and!; auto.
    + destruct (tag_value info "DateTimeDigitized") as [vd|] eqn:Hd;
        simpl in Hres; [|done].
      destruct (truthy vd); [|done]. destruct vd as [text| |]; try done.
      exists text. destruct (strptime text _) eqn:Hparse; [|done].
      injection Hres as ->. split_and!; auto.
Qed.

End DateResolver.

(** C5 as first stated fails on a file whose modification time can be
    read but is no date [datetime.fromtimestamp] accepts: [os.path.getmtime]
    returns, the conversion raises inside the same [try], and the result is
    [None]. *)
Lemma get_photo_date_none_with_mtime :
  getmtime far_future ["pics"; "late.jpg"] = Ok 1000000000000%Z
  /\ get_photo_date (H := sample_platform) far_future ["pics"; "late.jpg"]
     = None.
Proof. split; reflexivity. Qed.

(** *** Duplicate handling: the branches that leave the disk alone *)

Section Resolver.
Context `{Platform}.

Lemma for_each_st_inert {A S : Type} (body : S -> A -> S * option exn)
    (l : list A) (st : S) :
  (forall x, x ∈ l -> exists r, body st x = (st, r)) ->
  exists r, for_each_st body l st = (st, r).
Proof.
  induction l as [|x l IH]; intros Hb; simpl; [eauto|].
  destruct (Hb x) as [[e|] ->]; [by left | eauto |].
  apply IH. intros. apply Hb. by right.
Qed.

Lemma for_each_st_ext {A S : Type} (body body' : S -> A -> S * option exn)
    (l : list A) (st : S) :
  (forall st x, body st x = body' st x) ->
  for_each_st body l st = for_each_st body' l st.
Proof.
  intros Hb. revert st. induction l as [|x l IH]; intros st; simpl; [done|].
  rewrite Hb. destruct (body' st x) as [st' [e|]]; [done | apply IH].
Qed.

(** An action other than ["move"] and ["delete"] is handled as ["list"]. *)
Lemma handle_group_as_list (action : string) (target : path) (st : hd_state)
    (group : string * list path) :
  action <> "move" -> action <> "delete" ->
  handle_group action target st group = handle_group "list" target st group.
Proof.
  intros Hm Hd. unfold handle_group. destruct group as [h [|original rest]]; [done|].
  case_bool_decide; [done|].
  rewrite (bool_decide_false (action = "move")) by done.
  rewrite (bool_decide_false (action = "delete")) by done.
  by case_bool_decide.
Qed.

Lemma handle_group_list_inert (target : path) (st : hd_state)
    (group : string * list path) :
  exists r, handle_group "list" target st group = (st, r).
Proof.
  unfold handle_group. destruct group as [h [|original rest]]; [eauto|].
  case_bool_decide; eauto.
Qed.

(** C10. With an action that is none of ["list"], ["move"], ["delete"],
    [handle_duplicates] does what it does for ["list"]: the file system is
    the one it started from, nothing is moved or deleted, no directory is
    created and no line is read from the console. *)
Theorem handle_duplicates_unknown_action (s : tree) (console : list string)
    (duplicate_groups : list (string * list path)) (action : string)
    (target_folder : path) :
  action <> "list" -> action <> "move" -> action <> "delete" ->
  (handle_duplicates s console duplicate_groups action target_folder).1
  = (handle_duplicates s console duplicate_groups "list" target_folder).1
  /\ exists r,
       (handle_duplicates s console duplicate_groups action target_folder).1
       = (HdState s 0 0 console [], r).
Proof.
  intros _ Hm Hd. unfold handle_duplicates.
  case_bool_decide; [simpl; eauto|].
  rewrite (bool_decide_false (action = "move")) by done.
  rewrite (bool_decide_false ("list" = "move")) by done. simpl.
  split.
  - apply for_each_st_ext. intros. by apply handle_group_as_list.
  - apply for_each_st_inert. intros g _.
    rewrite handle_group_as_list by done. apply handle_group_list_inert.
Qed.

Lemma lower_o (line : string) : lower line = "o" <-> line = "o" \/ line = "O".
Proof.
  split.
  - destruct line as [|c [|c' line]]; simpl; try done.
    intros [= Hc]. revert Hc. unfold lower_ascii.
    case_bool_decide as Hr.
    + intros Hc. right. f_equal.
      apply (f_equal nat_of_ascii) in Hc.
      destruct Hr as [Hr1 Hr2].
      rewrite nat_ascii_embedding in Hc.
      2:{ apply Nat.le_lt_trans with (90 + 32); [by apply Nat.add_le_mono_r|].
          by apply Nat.ltb_lt. }
      change (nat_of_ascii "o") with (79 + 32) in Hc.
      apply Nat.add_cancel_r in Hc. rename Hc into Hn.
      apply (f_equal ascii_of_nat) in Hn. by rewrite ascii_nat_embedding in Hn.
    + intros ->. by left.
  - by intros [-> | ->].
Qed.

(** A group whose prompt is not answered by ["o"] or ["O"] is left alone;
    only the line read is consumed. *)
Lemma handle_group_delete_declined (target : path) (st : hd_state)
    (group : string * list path) :
  match stdin st with
  | line :: _ => lower line <> "o"
  | [] => True
  end ->
  exists rest r,
    handle_group "delete" target st group
    = (HdState (hd_fs st) (moved_count st) (deleted_count st) rest (hd_log st), r)
    /\ (rest = stdin st \/ rest = tail (stdin st)).
Proof.
  intros Hline. unfold handle_group. destruct group as [h [|original cands]].
  { destruct st; simpl; eauto. }
  case_bool_decide; [destruct st; simpl; eauto|].
  simpl. destruct (stdin st) as [|line rest] eqn:Hin.
  { destruct st; simpl in *; subst; eauto. }
  rewrite bool_decide_false by done. simpl. eauto.
Qed.

Lemma delete_run_declined (target : path) (groups : list (string * list path))
    (st : hd_state) :
  Forall (fun line => lower line <> "o") (stdin st) ->
  exists rest r,
    for_each_st (handle_group "delete" target) groups st
    = (HdState (hd_fs st) (moved_count st) (deleted_count st) rest (hd_log st), r).
Proof.
  revert st. induction groups as [|g groups IH]; intros st Hall; simpl.
  { destruct st; simpl; eauto. }
  destruct (handle_group_delete_declined target st g) as (rest & r & -> & Hrest).
  { destruct (stdin st); [done|]. by apply Forall_cons in Hall as [? _]. }
  destruct r as [e|]; [eauto|].
  edestruct (IH (HdState (hd_fs st) (moved_count st) (deleted_count st) rest
                   (hd_log st))) as (rest' & r' & ->); [|simpl; eauto].
  simpl. destruct Hrest as [-> | ->]; [done|]. by apply Forall_tail.
Qed.

(** C6. Under the ["delete"] action a group is only touched after its own
    prompt has been answered by ["o"] or ["O"]: with any other answer (or
    none) the group's pass removes nothing and counts nothing; a run in
    which no answer is affirmative ends on the file system it started
    from, with a deletion count of zero; and a pass that did change the
    file system or the count had read an affirmative answer first. *)
Theorem delete_needs_confirmation :
  (forall target st group,
     match stdin st with
     | line :: _ => line <> "o" /\ line <> "O"
     | [] => True
     end ->
     exists st' r,
       handle_group "delete" target st group = (st', r)
       /\ hd_fs st' = hd_fs st
       /\ deleted_count st' = deleted_count st
       /\ hd_log st' = hd_log st)
  /\ (forall s console groups target,
       Forall (fun line => line <> "o" /\ line <> "O") console ->
       exists st r,
         handle_duplicates s console groups "delete" target = (st, r, "delete")
         /\ hd_fs st = s /\ deleted_count st = 0 /\ hd_log st = [])
  /\ (forall target st group st' r,
       handle_group "delete" target st group = (st', r) ->
       hd_fs st' <> hd_fs st \/ deleted_count st' <> deleted_count st ->
       exists line rest,
         stdin st = line :: rest /\ (line = "o" \/ line = "O")).
Proof.
  assert (Hstep : forall target st group,
            match stdin st with
            | line :: _ => line <> "o" /\ line <> "O"
            | [] => True
            end ->
            exists st' r,
              handle_group "delete" target st group = (st', r)
              /\ hd_fs st' = hd_fs st
              /\ deleted_count st' = deleted_count st
              /\ hd_log st' = hd_log st).
  { intros target st group Hline.
    destruct (handle_group_delete_declined target st group)
      as (rest & r & -> & _); [|simpl; eauto 10].
    destruct (stdin st) as [|line ?]; [done|]. rewrite lower_o. tauto. }
  split_and!.
  - done.
  - intros s console groups target Hall. unfold handle_duplicates.
    case_bool_decide; [simpl; eauto 10|].
    rewrite (bool_decide_false ("delete" = "move")) by done. simpl.
    destruct (delete_run_declined target groups (HdState s 0 0 console []))
      as (rest & r & ->); [|simpl; eauto 10].
    simpl. eapply Forall_impl; [done|]. intros line. rewrite lower_o. tauto.
  - intros target st group st' r Hrun Hch.
    destruct (stdin st) as [|line rest] eqn:Hin.
    + destruct (Hstep target st group) as (st1 & r1 & Hrun1 & ? & ? & ?).
      { by rewrite Hin. }
      rewrite Hrun in Hrun1. injection Hrun1 as <- <-.
      destruct Hch; congruence.
    + exists line, rest. split; [done|].
      destruct (decide (line = "o")) as [|Hno]; [by left|].
      destruct (decide (line = "O")) as [|HnO]; [by right|].
      destruct (Hstep target st group) as (st1 & r1 & Hrun1 & ? & ? & ?).
      { by rewrite Hin. }
      rewrite Hrun in Hrun1. injection Hrun1 as <- <-.
      destruct Hch; congruence.
Qed.

End Resolver.

(** *** Names with a numeric suffix *)

Section Names.

Lemma string_app_length (a b : string) :
  String.length (a +:+ b) = String.length a + String.length b.
Proof. induction a as [|c a IH]; simpl; [done | by rewrite IH]. Qed.

Lemma string_app_inj_r (a b e : string) : a +:+ e = b +:+ e -> a = b.
Proof.
  revert b. induction a as [|c a IH]; intros [|c' b] Heq.
  - done.
  - apply (f_equal String.length) in Heq. simpl in Heq.
    rewrite !string_app_length in Heq. simpl in Heq. lia.
  - apply (f_equal String.length) in Heq. simpl in Heq.
    rewrite !string_app_length in Heq. simpl in Heq. lia.
  - simpl in Heq. injection Heq as -> Heq. f_equal. by apply IH.
Qed.

Lemma string_app_empty_r (a : string) : a +:+ "" = a.
Proof.
  induction a as [|c a IH]; [done|].
  change (String c (a +:+ "") = String c a). by rewrite IH.
Qed.

Lemma split_last_dot_app (name b e : string) :
  split_last_dot name = Some (b, e) -> b +:+ e = name.
Proof.
  revert b e. induction name as [|c name IH]; intros b e; simpl; [done|].
  destruct (split_last_dot name) as [[b' e']|].
  - intros [= <- <-]. specialize (IH b' e' eq_refl). by rewrite <- IH.
  - destruct (Ascii.eqb c "."); [|done]. by intros [= <- <-].
Qed.

(** Stem and extension put together give the name back. *)
Lemma splitext_name_app (name : string) :
  (splitext_name name).1 +:+ (splitext_name name).2 = name.
Proof.
  unfold splitext_name.
  destruct (split_last_dot name) as [[b e]|] eqn:Hs; simpl.
  - destruct (all_dots b); simpl; [apply string_app_empty_r|].
    by apply split_last_dot_app.
  - apply string_app_empty_r.
Qed.

(** Two counters never give the same suffixed name. *)
Lemma suffixed_inj (base : path) (ext : string) (j k : nat) :
  suffixed base j ext = suffixed base k ext -> j = k.
Proof.
  unfold suffixed. intros Heq. apply app_inj_tail in Heq as [_ Heq].
  apply (inj (String.app _)) in Heq. apply (inj (String.app _)) in Heq.
  apply string_app_inj_r in Heq. by apply (inj pretty) in Heq.
Qed.

(** A finite tree leaves one of any [size s + 1] distinct names free. *)
Lemma free_name_exists (s : tree) (f : nat -> path) :
  (forall j k, f j = f k -> j = k) ->
  exists n, n <= size s /\ s !! f n = None.
Proof.
  intros Hinj.
  destruct (decide (Exists (fun n => s !! f n = None) (seq 0 (S (size s)))))
    as [Hex | Hno].
  - apply Exists_exists in Hex as (n & Hn & Hfree).
    apply elem_of_seq in Hn. exists n. split; [lia | done].
  - exfalso. apply not_Exists_Forall in Hno; [|intros ?; apply _].
    rewrite Forall_forall in Hno.
    set (l := f <$> seq 0 (S (size s))).
    assert (Hnd : NoDup l).
    { apply NoDup_fmap_2_strong; [|apply NoDup_seq]. intros; by apply Hinj. }
    assert (Hsub : (list_to_set l : gset path) ⊆ dom s).
    { intros p Hp. apply elem_of_list_to_set in Hp.
      apply list_elem_of_fmap in Hp as (n & -> & Hn).
      apply elem_of_dom. specialize (Hno n Hn). simpl in Hno.
      by destruct (s !! f n). }
    apply subseteq_size in Hsub.
    rewrite size_list_to_set, size_dom in Hsub by done.
    unfold l in Hsub. rewrite length_fmap, length_seq in Hsub. lia.
Qed.

(** The names the two collision loops try, in order: the plain name, then
    the name with suffix [_1], [_2], ... *)
Definition candidate (new_path base : path) (ext : string) (k : nat) : path :=
  match k with
  | 0 => new_path
  | S _ => suffixed base k ext
  end.

Lemma candidate_free (s : tree) (new_path base : path) (ext : string) :
  exists n, n < size s + 2 /\ s !! candidate new_path base ext n = None.
Proof.
  destruct (free_name_exists s (fun j => suffixed base (S j) ext))
    as (n & Hn & Hfree).
  { intros j k Heq. apply suffixed_inj in Heq. lia. }
  exists (S n). split; [lia | done].
Qed.

(** A search that stops at the first candidate satisfying [stop] finds the
    least such candidate when one lies within the fuel. *)
Lemma least_candidate (stop : nat -> bool) (k fuel : nat) :
  (exists n, k <= n < k + fuel /\ stop n = true) ->
  exists n, k <= n < k + fuel /\ stop n = true
            /\ forall j, k <= j < n -> stop j = false.
Proof.
  revert k. induction fuel as [|fuel IH]; intros k (n & Hn & Hs); [lia|].
  destruct (stop k) eqn:Hk.
  - exists k. split; [lia|]. split; [done|]. intros; lia.
  - destruct (IH (S k)) as (m & Hm & Hsm & Hleast).
    { exists n. split; [|done]. destruct (decide (n = k)); [congruence | lia]. }
    exists m. split; [lia|]. split; [done|].
    intros j Hj. destruct (decide (j = k)) as [->|]; [done|]. apply Hleast. lia.
Qed.

End Names.

(** *** The relocate branch *)

Section Relocate.
Context `{Platform}.

Lemma exists_false (s : tree) (p : path) : exists_ s p = false <-> s !! p = None.
Proof.
  unfold exists_. rewrite bool_decide_eq_false, <- eq_None_not_Some. done.
Qed.

Lemma exists_true (s : tree) (p : path) : exists_ s p = true <-> is_Some (s !! p).
Proof. unfold exists_. by rewrite bool_decide_eq_true. Qed.

Lemma free_name_loop_spec (s : tree) (new_path base : path) (ext : string)
    (n : nat) :
  (forall j, j < n -> exists_ s (candidate new_path base ext j) = true) ->
  exists_ s (candidate new_path base ext n) = false ->
  forall fuel k, k <= n < k + fuel ->
    free_name_loop fuel s base ext (candidate new_path base ext k) (S k)
    = Some (candidate new_path base ext n).
Proof.
  intros Hbusy Hfree. induction fuel as [|fuel IH]; intros k Hk; [lia|].
  simpl. destruct (decide (k = n)) as [->|Hne].
  - by rewrite Hfree.
  - rewrite Hbusy by lia. apply (IH (S k)). lia.
Qed.

(** The name the relocate branch settles on: the first free candidate. *)
Lemma free_name_found (s : tree) (new_path base : path) (ext : string) :
  exists n,
    default new_path (free_name_loop (size s + 2) s base ext new_path 1)
    = candidate new_path base ext n
    /\ s !! candidate new_path base ext n = None
    /\ forall j, j < n -> is_Some (s !! candidate new_path base ext j).
Proof.
  destruct (least_candidate
              (fun j => negb (exists_ s (candidate new_path base ext j)))
              0 (size s + 2)) as (n & Hn & Hfree & Hbusy).
  { destruct (candidate_free s new_path base ext) as (n & Hn & Hfree).
    exists n. split; [lia|]. apply negb_true_iff. by apply exists_false. }
  apply negb_true_iff in Hfree. exists n.
  rewrite (free_name_loop_spec s new_path base ext n) with (k := 0); simpl.
  - split; [done|]. split; [by apply exists_false|].
    intros j Hj. apply exists_true. specialize (Hbusy j).
    rewrite negb_false_iff in Hbusy. apply Hbusy. lia.
  - intros j Hj. specialize (Hbusy j). rewrite negb_false_iff in Hbusy.
    apply Hbusy. lia.
  - done.
  - lia.
Qed.

Lemma dirname_join (d : path) (name : string) : dirname (join d name) = d.
Proof. unfold dirname, join. by rewrite removelast_last. Qed.

Lemma basename_join (d : path) (name : string) : basename (join d name) = name.
Proof. unfold basename, join. by rewrite last_snoc. Qed.

(** Every candidate lies in the directory of the plain name. *)
Lemma dirname_candidate (d : path) (name : string) (n : nat) :
  dirname (candidate (join d name) (splitext (join d name)).1
             (splitext (join d name)).2 n) = d.
Proof.
  destruct n as [|n]; simpl; [apply dirname_join|].
  unfold splitext. rewrite basename_join, dirname_join.
  destruct (splitext_name name) as [stem ext]. simpl.
  unfold suffixed, dirname. by rewrite !removelast_last.
Qed.

(** Moving a regular file to a free name. *)
Lemma shutil_move_file_free (s : tree) (src dst : path) i d :
  s !! src = Some (File i d) -> s !! dst = None ->
  shutil_move s src dst
  = if isdir s (dirname dst)
    then Ok (<[dst := File i d]> (delete src s))
    else Raise OtherOSError.
Proof. intros Hs Hd. unfold shutil_move. by rewrite Hs, Hd. Qed.

(** What the relocate branch does with a candidate that is a regular
    file: it goes to the first free candidate name of the target folder. *)
Lemma move_duplicate_file (target : path) (st : hd_state) (dup : path) i d :
  hd_fs st !! dup = Some (File i d) ->
  let new_path := join target (basename dup) in
  exists n,
    let dst := candidate new_path (splitext new_path).1 (splitext new_path).2 n in
    hd_fs st !! dst = None
    /\ (forall j, j < n ->
          is_Some (hd_fs st !! candidate new_path (splitext new_path).1
                                 (splitext new_path).2 j))
    /\ move_duplicate target st dup
       = if isdir (hd_fs st) target
         then (HdState (<[dst := File i d]> (delete dup (hd_fs st)))
                 (S (moved_count st)) (deleted_count st) (stdin st)
                 (hd_log st ++ [Moved dup dst]), None)
         else (st, None).
Proof.
  intros Hdup new_path.
  destruct (free_name_found (hd_fs st) new_path (splitext new_path).1
              (splitext new_path).2) as (n & Hres & Hfree & Hbusy).
  exists n. simpl. split; [done|]. split; [done|].
  unfold move_duplicate. rewrite (proj2 (exists_true _ _)) by eauto. simpl.
  fold new_path. destruct (splitext new_path) as [base ext] eqn:Hsp.
  simpl in *. rewrite Hres.
  rewrite (shutil_move_file_free _ _ _ i d) by done.
  pose proof (dirname_candidate target (basename dup) n) as Hdir.
  fold new_path in Hdir. rewrite Hsp in Hdir. simpl in Hdir. rewrite Hdir.
  by destruct (isdir (hd_fs st) target).
Qed.

End Relocate.

(** *** Creating directories *)

Section Makedirs.

Lemma elem_of_prefixes (q p : path) : q ∈ prefixes p <-> q `prefix_of` p.
Proof.
  unfold prefixes. rewrite list_elem_of_fmap. split.
  - intros (k & -> & _). exists (drop k p). by rewrite take_drop.
  - intros [r ->]. exists (length q). split; [by rewrite take_app_length|].
    apply elem_of_seq. rewrite length_app. lia.
Qed.

Lemma mkdir_each_lookup (now : Z) (ps : list path) (s s' : tree) :
  mkdir_each now s ps = Ok s' ->
  forall q : path,
    s' !! q = match s !! q with
                      | Some n => Some n
                      | None => if bool_decide (q ∈ ps) then Some (Dir now)
                                else None
                      end.
Proof.
  revert s. induction ps as [|p0 ps IH]; intros s Hmk q; simpl in Hmk.
  { injection Hmk as <-. by destruct (s !! q). }
  destruct (s !! p0) as [[i d|mt]|] eqn:Hp0; [done | |].
  - rewrite (IH _ Hmk). destruct (s !! q) eqn:Hq; [done|].
    assert (q <> p0) by congruence.
    rewrite (bool_decide_ext (q ∈ p0 :: ps) (q ∈ ps)); [done|].
    rewrite elem_of_cons. tauto.
  - rewrite (IH _ Hmk). destruct (decide (q = p0)) as [->|Hne].
    + rewrite lookup_insert_eq, Hp0. rewrite bool_decide_true; [done | by left].
    + rewrite lookup_insert_ne by done. destruct (s !! q); [done|].
      rewrite (bool_decide_ext (q ∈ p0 :: ps) (q ∈ ps)); [done|].
    rewrite elem_of_cons. tauto.
Qed.

Lemma mkdir_each_no_file (now : Z) (ps : list path) (s s' : tree) :
  mkdir_each now s ps = Ok s' -> forall q, q ∈ ps -> isfile s q = false.
Proof.
  revert s. induction ps as [|p0 ps IH]; intros s Hmk q Hq; simpl in Hmk.
  { by apply elem_of_nil in Hq. }
  unfold isfile.
  destruct (decide (q = p0)) as [->|Hne].
  { by destruct (s !! p0) as [[i d|mt]|]. }
  apply elem_of_cons in Hq as [?|Hq]; [done|].
  destruct (s !! p0) as [[i d|mt]|] eqn:Hp0; [done | |].
  - apply (IH _ Hmk q Hq).
  - specialize (IH _ Hmk q Hq). unfold isfile in IH.
    by rewrite lookup_insert_ne in IH.
Qed.

(** A successful [makedirs] keeps every entry and adds the missing
    ancestors as directories. *)
Lemma makedirs_lookup (now : Z) (s s' : tree) (p : path) (ok : bool) :
  makedirs now s p ok = Ok s' ->
  forall q : path,
    s' !! q = match s !! q with
                      | Some n => Some n
                      | None => if bool_decide (q `prefix_of` p)
                                then Some (Dir now) else None
                      end.
Proof.
  unfold makedirs. intros Hmk q. destruct (_ && _) in Hmk; [done|].
  rewrite (mkdir_each_lookup _ _ _ _ Hmk). destruct (s !! q); [done|].
  rewrite (bool_decide_ext (q ∈ prefixes p) (q `prefix_of` p)); [done|].
  apply elem_of_prefixes.
Qed.

Lemma makedirs_isdir (now : Z) (s s' : tree) (p : path) (ok : bool) :
  makedirs now s p ok = Ok s' -> isdir s' p = true.
Proof.
  intros Hmk. pose proof (makedirs_lookup _ _ _ _ _ Hmk p) as Hl.
  unfold makedirs in Hmk. destruct (_ && _); [done|].
  pose proof (mkdir_each_no_file _ _ _ _ Hmk p) as Hnf.
  unfold isdir, isfile in *. rewrite Hl.
  destruct (s !! p) as [[i d|mt]|].
  - discriminate Hnf. by apply elem_of_prefixes.
  - done.
  - by rewrite bool_decide_true.
Qed.

Lemma makedirs_preserves (now : Z) (s s' : tree) (p q : path) (ok : bool) :
  makedirs now s p ok = Ok s' -> is_Some (s !! q) -> s' !! q = s !! q.
Proof.
  intros Hmk [n Hq]. by rewrite (makedirs_lookup _ _ _ _ _ Hmk), Hq.
Qed.

Lemma makedirs_raises_OSError (now : Z) (s : tree) (p : path) (ok : bool) e :
  makedirs now s p ok = Raise e -> e = OtherOSError.
Proof.
  unfold makedirs. destruct (_ && _); [by intros [= <-]|].
  generalize (prefixes p). intros ps. revert s.
  induction ps as [|p0 ps IH]; intros s; simpl; [done|].
  destruct (s !! p0) as [[i d|mt]|]; [by intros [= <-] | apply IH | apply IH].
Qed.

End Makedirs.

Section RelocateRun.
Context `{Platform}.

(** The paths a run may act on: every member of a group but its first. *)
Definition candidates (groups : list (string * list path)) : list path :=
  groups ≫= (fun g => tail g.2).

Lemma for_each_st_inv {A S : Type} (I : S -> Prop)
    (body : S -> A -> S * option exn) (l : list A) (st : S) :
  I st ->
  (forall st x, x ∈ l -> I st -> I (body st x).1) ->
  I (for_each_st body l st).1.
Proof.
  revert st. induction l as [|x l IH]; intros st Hst Hb; simpl; [done|].
  pose proof (Hb st x ltac:(left) Hst) as Hx.
  destruct (body st x) as [st' [e|]]; [done|].
  apply IH; [done|]. intros. apply Hb; [by right | done].
Qed.

(** What the relocate branch maintains: no candidate is a directory,
    every entry that is not a candidate is as it was in [s0], and only
    candidates were moved. *)
Definition relocate_inv (C : list path) (s0 : tree) (st : hd_state) : Prop :=
  (forall c, c ∈ C -> isdir (hd_fs st) c = false)
  /\ (forall q : path, q ∉ C -> is_Some (s0 !! q) -> hd_fs st !! q = s0 !! q)
  /\ (forall src dst, Moved src dst ∈ hd_log st -> src ∈ C).

Lemma move_duplicate_inv (C : list path) (s0 : tree) (target : path)
    (st : hd_state) (dup : path) :
  dup ∈ C -> relocate_inv C s0 st ->
  relocate_inv C s0 (move_duplicate target st dup).1.
Proof.
  intros Hdup (Hdir & Hkeep & Hlog).
  destruct (hd_fs st !! dup) as [[i d|mt]|] eqn:Hl.
  - destruct (move_duplicate_file target st dup i d Hl) as (n & Hfree & _ & ->).
    destruct (isdir (hd_fs st) target); [|done]. simpl.
    set (dst := candidate _ _ _ n) in *.
    split_and!; simpl.
    + intros c Hc. specialize (Hdir c Hc). unfold isdir in *.
      destruct (decide (c = dst)) as [->|Hne]; [by rewrite lookup_insert_eq|].
      rewrite lookup_insert_ne by done.
      destruct (decide (c = dup)) as [->|Hne']; [by rewrite lookup_delete_eq|].
      by rewrite lookup_delete_ne.
    + intros q Hq Hsome. rewrite <- (Hkeep q Hq Hsome).
      assert (q <> dst).
      { intros ->. rewrite (Hkeep dst Hq Hsome) in Hfree.
        rewrite Hfree in Hsome. by destruct Hsome. }
      assert (q <> dup) by (by intros ->).
      by rewrite lookup_insert_ne, lookup_delete_ne.
    + intros src dst' [Hin | Hin]%elem_of_app.
      * by apply (Hlog src dst').
      * apply list_elem_of_singleton in Hin. by injection Hin as -> _.
  - specialize (Hdir dup Hdup). unfold isdir in Hdir. by rewrite Hl in Hdir.
  - unfold move_duplicate. rewrite (proj2 (exists_false _ _)) by done. done.
Qed.












End RelocateRun.


(** The scenario of two copies [a.jpg] and [b.jpg]: [a.jpg] stays, [b.jpg]
    goes to the target folder. *)
Example relocate_two_copies :
  let a := ["pics"; "a.jpg"] in
  let b := ["pics"; "b.jpg"] in
  let st := (handle_duplicates (H := sample_platform) dup_tree []
               [("1.88", [a; b])] "move" ["dups"]).1.1 in
  hd_fs st !! a = dup_tree !! a
  /\ hd_fs st !! b = None
  /\ hd_fs st !! ["dups"; "b.jpg"] = dup_tree !! b
  /\ hd_log st = [Moved b ["dups"; "b.jpg"]].
Proof. split_and!; reflexivity. Qed.

(** *** Sorting: one file *)

Section SortOne.
Context `{Platform}.

(** The date of a path depends on its own entry only. *)
Lemma get_photo_date_ext (s s' : tree) (p p' : path) :
  s !! p = s' !! p' -> get_photo_date s p = get_photo_date s' p'.
Proof.
  intros Heq.
  unfold get_photo_date, exif_date, read_exif_data, mtime_date, getmtime.
  by rewrite Heq.
Qed.

(** Where the collision loop of [sort_photos] stops: at a free name, or
    at a name that is a link of the source file. *)
Definition stops (s : tree) (filepath q : path) : bool :=
  negb (exists_ s q) || bool_decide (samefile s filepath q = Ok true).

Lemma samefile_cases (s : tree) (p q : path) :
  samefile s p q = Ok true \/ samefile s p q = Ok false
  \/ samefile s p q = Raise FileNotFoundError.
Proof.
  unfold samefile.
  destruct (s !! p) as [[i d|mt]|], (s !! q) as [[j d'|mt']|];
    try case_bool_decide; auto.
Qed.

Lemma collision_loop_spec (s : tree) (filepath new_path base : path)
    (ext : string) (n : nat) :
  (forall j, j < n -> stops s filepath (candidate new_path base ext j) = false) ->
  stops s filepath (candidate new_path base ext n) = true ->
  forall fuel k, k <= n < k + fuel ->
    collision_loop fuel s filepath base ext (candidate new_path base ext k) (S k)
    = Some (Ok (candidate new_path base ext n)).
Proof.
  intros Hbusy Hstop. induction fuel as [|fuel IH]; intros k Hk; [lia|].
  simpl. destruct (decide (k = n)) as [->|Hne].
  - unfold stops in Hstop. apply orb_true_iff in Hstop as [Hfree | Hsame].
    + apply negb_true_iff in Hfree. by rewrite Hfree.
    + apply bool_decide_eq_true in Hsame. rewrite Hsame.
      by destruct (exists_ s _).
  - assert (Hj : stops s filepath (candidate new_path base ext k) = false)
      by (apply Hbusy; lia).
    unfold stops in Hj. apply orb_false_iff in Hj as [Hex Hsame].
    apply negb_false_iff in Hex. apply bool_decide_eq_false in Hsame.
    rewrite Hex.
    destruct (samefile_cases s filepath (candidate new_path base ext k))
      as [Hs | [-> | ->]]; [done | |]; apply (IH (S k)); lia.
Qed.

Lemma collision_found (s : tree) (filepath new_path base : path) (ext : string) :
  exists n,
    default (Ok new_path)
      (collision_loop (size s + 2) s filepath base ext new_path 1)
    = Ok (candidate new_path base ext n)
    /\ stops s filepath (candidate new_path base ext n) = true
    /\ forall j, j < n -> stops s filepath (candidate new_path base ext j) = false.
Proof.
  destruct (least_candidate
              (fun j => stops s filepath (candidate new_path base ext j))
              0 (size s + 2)) as (n & Hn & Hstop & Hbusy).
  { destruct (candidate_free s new_path base ext) as (n & Hn & Hfree).
    exists n. split; [lia|]. unfold stops.
    by rewrite (proj2 (exists_false _ _) Hfree). }
  exists n.
  rewrite (collision_loop_spec s filepath new_path base ext n) with (k := 0).
  - split; [done|]. split; [done|]. intros j Hj. apply Hbusy. lia.
  - intros j Hj. apply Hbusy. lia.
  - done.
  - lia.
Qed.

Lemma samefile_true_file (s : tree) (p q : path) i d :
  s !! p = Some (File i d) -> samefile s p q = Ok true ->
  exists d', s !! q = Some (File i d').
Proof.
  unfold samefile. intros ->. destruct (s !! q) as [[j d'|mt]|]; [|done|done].
  intros [= Hij%bool_decide_eq_true]. subst. eauto.
Qed.

(** What the body of the loop does with a regular file whose date is
    known, once the day folder is there: it stops at the first candidate
    name that is free or a link of the file; the file stays when that is
    its own path, and else goes through [shutil.move]. *)
Lemma sort_one_file (root : path) (st : sort_state) (p : path) i d dt s1 :
  st_fs st !! p = Some (File i d) ->
  get_photo_date (st_fs st) p = Some dt ->
  makedirs clock (st_fs st) (day_folder_of root dt) true = Ok s1 ->
  let new_path := join (day_folder_of root dt) (basename p) in
  exists n,
    let dst := candidate new_path (splitext new_path).1 (splitext new_path).2 n in
    stops s1 p dst = true
    /\ (forall j, j < n ->
          stops s1 p (candidate new_path (splitext new_path).1
                        (splitext new_path).2 j) = false)
    /\ sort_one root st p
       = if bool_decide (p = dst) then
           (SortState s1 (processed_count st) (skipped_count st)
              (st_log st ++ [InPlace p]), None)
         else
           (SortState (match s1 !! dst with
                       | None => <[dst := File i d]> (delete p s1)
                       | Some _ => s1
                       end)
              (S (processed_count st)) (skipped_count st)
              (st_log st ++ [Sorted p dst]), None).
Proof.
  intros Hp Hdate Hmk new_path.
  assert (Hp1 : s1 !! p = Some (File i d)).
  { rewrite (makedirs_preserves _ _ _ _ _ _ Hmk); [done | by eauto]. }
  destruct (collision_found s1 p new_path (splitext new_path).1
              (splitext new_path).2) as (n & Hres & Hstop & Hbusy).
  exists n. simpl. split; [done|]. split; [done|].
  unfold sort_one. rewrite (proj2 (exists_true _ _)) by eauto. simpl.
  rewrite Hdate, Hmk. fold new_path.
  destruct (splitext new_path) as [base ext] eqn:Hsp. simpl in *.
  rewrite Hres. set (dst := candidate new_path base ext n) in *.
  case_bool_decide as Heq; simpl.
  { rewrite <- Heq. by rewrite (proj2 (exists_true _ _)) by eauto. }
  unfold stops in Hstop. apply orb_true_iff in Hstop as [Hfree | Hsame].
  - apply negb_true_iff, exists_false in Hfree.
    rewrite (shutil_move_file_free _ _ _ i d) by done.
    assert (Hdir : dirname dst = day_folder_of root dt).
    { pose proof (dirname_candidate (day_folder_of root dt) (basename p) n) as Hd.
      fold new_path in Hd. by rewrite Hsp in Hd. }
    rewrite Hdir, (makedirs_isdir _ _ _ _ _ Hmk), Hfree. done.
  - apply bool_decide_eq_true in Hsame.
    destruct (samefile_true_file _ _ _ _ _ Hp1 Hsame) as [d' Hdst].
    unfold shutil_move. rewrite Hp1, Hdst. by rewrite bool_decide_true.
Qed.

End SortOne.

(** *** Sorting: collisions and dates *)

Section Collisions.
Context `{Platform}.

Lemma stops_false (s : tree) (p q : path) :
  stops s p q = false <-> is_Some (s !! q) /\ samefile s p q <> Ok true.
Proof.
  unfold stops. rewrite orb_false_iff, negb_false_iff, exists_true.
  by rewrite bool_decide_eq_false.
Qed.

Lemma stops_true (s : tree) (p q : path) :
  stops s p q = true <-> s !! q = None \/ samefile s p q = Ok true.
Proof.
  unfold stops. rewrite orb_true_iff, negb_true_iff, exists_false.
  by rewrite bool_decide_eq_true.
Qed.

(** A suffixed name is never the name it was made from. *)
Lemma suffixed_ne_source (d : path) (filepath : path) (n : nat) :
  let new_filepath := join d (basename filepath) in
  filepath <> suffixed (splitext new_filepath).1 n (splitext new_filepath).2.
Proof.
  intros new_filepath Heq. apply (f_equal basename) in Heq.
  unfold new_filepath, splitext, suffixed in Heq.
  rewrite basename_join, dirname_join in Heq.
  pose proof (splitext_name_app (basename filepath)) as Happ.
  destruct (splitext_name (basename filepath)) as [stem ext]. simpl in *.
  unfold dirname in Heq at 1. rewrite removelast_last in Heq.
  unfold basename at 2 in Heq. rewrite last_snoc in Heq. simpl in Heq.
  unfold basename at 2 in Heq. rewrite last_snoc in Heq. simpl in Heq.
  rewrite <- Happ in Heq at 1.
  apply (f_equal String.length) in Heq.
  rewrite !string_app_length in Heq. simpl in Heq. lia.
Qed.

(** C3, as amended.  When the destination name of a regular file is held
    by a different underlying file, the file gets the name [stem_N.ext]
    for the least N >= 1 whose name is unused or is already a link of the
    file itself.  When that name is unused the file is moved there; when
    it is a link of the file, the step ends with that name as the
    destination and the file system as it was.  In every case each entry
    that was there before, other than the source's own, is left as it
    was: nothing is overwritten. *)
Theorem collision_never_overwrites (destination_base_folder : path)
    (st : sort_state) (filepath : path) i d photo_date s1 :
  st_fs st !! filepath = Some (File i d) ->
  get_photo_date (st_fs st) filepath = Some photo_date ->
  makedirs clock (st_fs st) (day_folder_of destination_base_folder photo_date)
    true = Ok s1 ->
  let new_filepath :=
    join (day_folder_of destination_base_folder photo_date) (basename filepath) in
  let base := (splitext new_filepath).1 in
  let ext := (splitext new_filepath).2 in
  is_Some (s1 !! new_filepath) ->
  samefile s1 filepath new_filepath <> Ok true ->
  exists N,
    1 <= N
    /\ (forall j, 1 <= j < N ->
          is_Some (s1 !! suffixed base j ext)
          /\ samefile s1 filepath (suffixed base j ext) <> Ok true)
    /\ (s1 !! suffixed base N ext = None
        \/ samefile s1 filepath (suffixed base N ext) = Ok true)
    /\ (s1 !! suffixed base N ext = None ->
        sort_one destination_base_folder st filepath
        = (SortState (<[suffixed base N ext := File i d]> (delete filepath s1))
             (S (processed_count st)) (skipped_count st)
             (st_log st ++ [Sorted filepath (suffixed base N ext)]), None))
    /\ (samefile s1 filepath (suffixed base N ext) = Ok true ->
        sort_one destination_base_folder st filepath
        = (SortState s1 (S (processed_count st)) (skipped_count st)
             (st_log st ++ [Sorted filepath (suffixed base N ext)]), None))
    /\ (forall q : path,
          q <> filepath -> is_Some (s1 !! q) ->
          st_fs (sort_one destination_base_folder st filepath).1 !! q = s1 !! q).
Proof.
  intros Hp Hdate Hmk new_filepath base ext Hheld Hother.
  destruct (sort_one_file destination_base_folder st filepath i d photo_date s1
              Hp Hdate Hmk) as (n & Hstop & Hbusy & Hrun).
  fold new_filepath base ext in Hstop, Hbusy, Hrun.
  assert (Hp1 : s1 !! filepath = Some (File i d)).
  { rewrite (makedirs_preserves _ _ _ _ _ _ Hmk); [done | by eauto]. }
  destruct n as [|n].
  { simpl in Hstop. apply stops_true in Hstop as [Hfree | Hsame].
    - rewrite Hfree in Hheld. by destruct Hheld.
    - done. }
  exists (S n). simpl in Hstop, Hrun.
  pose proof (suffixed_ne_source
                (day_folder_of destination_base_folder photo_date) filepath (S n))
    as Hne.
  simpl in Hne. fold new_filepath base ext in Hne.
  set (dst := suffixed base (S n) ext) in *.
  rewrite bool_decide_false in Hrun by done.
  split; [lia|]. split.
  { intros j Hj. apply stops_false.
    specialize (Hbusy j ltac:(lia)). by destruct j; [lia|]. }
  split; [by apply stops_true|]. split; [|split].
  - intros Hfree. by rewrite Hrun, Hfree.
  - intros Hsame. rewrite Hrun.
    by destruct (samefile_true_file _ _ _ _ _ Hp1 Hsame) as [d' ->].
  - intros q Hq Hsome. rewrite Hrun. simpl.
    destruct (s1 !! dst) eqn:Hdst; [done|].
    rewrite lookup_insert_ne, lookup_delete_ne; [done | done |].
    intros Heq. rewrite <- Heq, Hdst in Hsome. by destruct Hsome.
Qed.

(** When the destination name is held by the source's own underlying
    file, no suffix is tried and the file system is left alone; but the
    move is skipped only when the two paths are the same path: otherwise
    [shutil.move] is called (it does nothing to two links of one file) and
    the file is counted as moved. *)
Lemma sort_one_same_file (destination_base_folder : path) (st : sort_state)
    (filepath : path) i d photo_date s1 :
  st_fs st !! filepath = Some (File i d) ->
  get_photo_date (st_fs st) filepath = Some photo_date ->
  makedirs clock (st_fs st) (day_folder_of destination_base_folder photo_date)
    true = Ok s1 ->
  let new_filepath :=
    join (day_folder_of destination_base_folder photo_date) (basename filepath) in
  samefile s1 filepath new_filepath = Ok true ->
  sort_one destination_base_folder st filepath
  = if bool_decide (filepath = new_filepath) then
      (SortState s1 (processed_count st) (skipped_count st)
         (st_log st ++ [InPlace filepath]), None)
    else
      (SortState s1 (S (processed_count st)) (skipped_count st)
         (st_log st ++ [Sorted filepath new_filepath]), None).
Proof.
  intros Hp Hdate Hmk new_filepath Hsame.
  destruct (sort_one_file destination_base_folder st filepath i d photo_date s1
              Hp Hdate Hmk) as (n & Hstop & Hbusy & Hrun).
  fold new_filepath in Hstop, Hbusy, Hrun.
  destruct n as [|n].
  - simpl in Hrun. rewrite Hrun. case_bool_decide; [done|].
    assert (Hp1 : s1 !! filepath = Some (File i d)).
    { rewrite (makedirs_preserves _ _ _ _ _ _ Hmk); [done | by eauto]. }
    destruct (samefile_true_file _ _ _ _ _ Hp1 Hsame) as [d' ->]. done.
  - specialize (Hbusy 0 ltac:(lia)). simpl in Hbusy.
    apply stops_false in Hbusy as [_ Hne]. done.
Qed.

End Collisions.

(** The names of the day folder: the year as [str] prints it, month and
    day on two digits.  A year of four digits prints as four characters. *)
Lemma div10_bounds (y lo hi : N) :
  (10 * lo <= y < 10 * hi)%N -> (lo <= y `div` 10 < hi)%N.
Proof.
  intros Hy. split.
  - apply N.div_le_lower_bound; lia.
  - apply N.Div0.div_lt_upper_bound; lia.
Qed.

Lemma pretty_four_digits (y : N) :
  (1000 <= y < 10000)%N -> String.length (pretty y) = 4.
Proof.
  intros Hy. unfold pretty, pretty_N. rewrite decide_False by lia.
  pose proof (div10_bounds y 100 1000 ltac:(lia)) as H1.
  pose proof (div10_bounds (y `div` 10) 10 100 ltac:(lia)) as H2.
  pose proof (div10_bounds ((y `div` 10) `div` 10) 1 10 ltac:(lia)) as H3.
  pose proof (div10_bounds (((y `div` 10) `div` 10) `div` 10) 0 1 ltac:(lia)) as H4.
  rewrite pretty_N_go_step by lia.
  rewrite pretty_N_go_step by lia.
  rewrite pretty_N_go_step by lia.
  rewrite pretty_N_go_step by lia.
  replace ((((y `div` 10) `div` 10) `div` 10) `div` 10)%N with 0%N by lia.
  by rewrite pretty_N_go_0.
Qed.

Lemma two_digits_length (n : N) :
  (n < 100)%N -> String.length (two_digits n) = 2.
Proof.
  intros Hn. unfold two_digits, pretty, pretty_N. case_bool_decide.
  - destruct (decide (n = 0%N)) as [->|]; [done|].
    pose proof (div10_bounds n 0 1 ltac:(lia)) as H1.
    rewrite pretty_N_go_step by lia.
    replace (n `div` 10)%N with 0%N by lia. by rewrite pretty_N_go_0.
  - rewrite decide_False by lia.
    pose proof (div10_bounds n 1 10 ltac:(lia)) as H1.
    pose proof (div10_bounds (n `div` 10) 0 1 ltac:(lia)) as H2.
    rewrite pretty_N_go_step by lia. rewrite pretty_N_go_step by lia.
    replace ((n `div` 10) `div` 10)%N with 0%N by lia. by rewrite pretty_N_go_0.
Qed.

Lemma day_folder_layout `{Platform} (root : path) (dt : datetime) :
  day_folder_of root dt
  = root ++ [pretty (year dt); two_digits (month dt); two_digits (day dt)]
  /\ ((1000 <= year dt < 10000)%N -> String.length (pretty (year dt)) = 4)
  /\ ((month dt < 100)%N -> String.length (two_digits (month dt)) = 2)
  /\ ((day dt < 100)%N -> String.length (two_digits (day dt)) = 2).
Proof.
  split_and!.
  - unfold day_folder_of, join. by rewrite <- !app_assoc.
  - apply pretty_four_digits.
  - apply two_digits_length.
  - apply two_digits_length.
Qed.

(** A third picture named [x.jpg] taken that day: [x.jpg] and [x_1.jpg]
    are taken by other files, so it lands at [x_2.jpg]. *)
Lemma collision_never_overwrites_witness :
  let st := SortState album 0 0 [] in
  let filepath := ["in3"; "x.jpg"] in
  let d := photo [x43] 1600000000 "2020:05:17 12:00:00" in
  let base := day_17 ++ ["x"] in
  exists N,
    1 <= N
    /\ (forall j, 1 <= j < N ->
          is_Some (album !! suffixed base j ".jpg")
          /\ samefile album filepath (suffixed base j ".jpg") <> Ok true)
    /\ (album !! suffixed base N ".jpg" = None
        \/ samefile album filepath (suffixed base N ".jpg") = Ok true)
    /\ (album !! suffixed base N ".jpg" = None ->
        sort_one (H := sample_platform) ["out"] st filepath
        = (SortState (<[suffixed base N ".jpg" := File 3 d]> (delete filepath album))
             1 0 [Sorted filepath (suffixed base N ".jpg")], None))
    /\ (samefile album filepath (suffixed base N ".jpg") = Ok true ->
        sort_one (H := sample_platform) ["out"] st filepath
        = (SortState album 1 0 [Sorted filepath (suffixed base N ".jpg")], None))
    /\ (forall q : path,
          q <> filepath -> is_Some (album !! q) ->
          st_fs (sort_one (H := sample_platform) ["out"] st filepath).1 !! q
          = album !! q).
Proof.
  intros st filepath d base.
  apply (collision_never_overwrites (H := sample_platform) ["out"] st filepath 3 d
           (DateTime 2020 5 17 12 0 0) album).
  - reflexivity.
  - reflexivity.
  - reflexivity.
  - eexists. reflexivity.
  - simpl. discriminate.
Defined.

(** C3 as first stated fails when the source has a hard link under a
    suffixed name: [/in/x.jpg] meets a different file at [x.jpg], is given
    the name [x_1.jpg], which is in use (by its own link), and stays where
    it was. *)
Lemma collision_stops_at_own_link :
  let src := ["in"; "x.jpg"] in
  let st := (sort_photos (H := sample_platform) album [src] ["out"]).1 in
  samefile album src (day_17 ++ ["x.jpg"]) = Ok false
  /\ st_log st = [Sorted src (day_17 ++ ["x_1.jpg"])]
  /\ is_Some (album !! (day_17 ++ ["x_1.jpg"]))
  /\ st_fs st !! src = album !! src.
Proof. split_and!; [reflexivity | reflexivity | eexists; reflexivity | reflexivity]. Qed.

(** C4 at a year below 1000: the picture dated 0999-01-01 is filed under
    [/out/999/01/01], a year folder of three characters. *)
Theorem sort_photos_year_999 :
  let src := ["in3"; "old.jpg"] in
  let st := (sort_photos (H := sample_platform) album [src] ["out"]).1 in
  get_photo_date (H := sample_platform) album src = Some (DateTime 999 1 1 0 0 0)
  /\ day_folder_of ["out"] (DateTime 999 1 1 0 0 0) = ["out"; "999"; "01"; "01"]
  /\ st_log st = [Sorted src ["out"; "999"; "01"; "01"; "old.jpg"]]
  /\ is_Some (st_fs st !! ["out"; "999"; "01"; "01"; "old.jpg"]).
Proof. split_and!; [reflexivity | reflexivity | reflexivity | eexists; reflexivity]. Qed.

(** The two dated scenarios: EXIF DateTimeOriginal 2020:05:17 10:00:00
    sorts under [2020/05/17], and a file without metadata whose
    modification time is 2019-01-02 under [2019/01/02]. *)
Example sort_photos_dated_scenarios :
  day_folder_of ["out"] (DateTime 2020 5 17 10 0 0) = ["out"; "2020"; "05"; "17"]
  /\ get_photo_date (H := sample_platform) album ["in2"; "x.jpg"]
     = Some (DateTime 2020 5 17 10 0 0)
  /\ st_log (sort_photos (H := sample_platform) album [["in3"; "scan.png"]]
               ["out"]).1
     = [Sorted ["in3"; "scan.png"] ["out"; "2019"; "01"; "02"; "scan.png"]].
Proof. split_and!; reflexivity. Qed.

(** C8 at a source that is a hard link of the file at its destination:
    [/in2/x.jpg] and [/out/2020/05/17/x.jpg] are one file under two
    different paths; the loop stops without a suffix, and [shutil.move] is
    then called and counted. *)
Theorem sort_photos_moves_link_of_destination :
  let src := ["in2"; "x.jpg"] in
  let st := (sort_photos (H := sample_platform) album [src] ["out"]).1 in
  samefile album src (day_17 ++ ["x.jpg"]) = Ok true
  /\ st_log st = [Sorted src (day_17 ++ ["x.jpg"])]
  /\ processed_count st = 1
  /\ skipped_count st = 0.
Proof. split_and!; reflexivity. Qed.

(** *** Sorting twice *)

Section Idempotence.
Context `{Platform}.

(** A file is in place when it sits, under its own name, in the day
    folder of its own date, all of whose ancestors are directories. *)
Definition in_place (root : path) (s : tree) (p : path) : Prop :=
  exists i d dt,
    s !! p = Some (File i d)
    /\ get_photo_date s p = Some dt
    /\ p = join (day_folder_of root dt) (basename p)
    /\ forall q : path, q `prefix_of` day_folder_of root dt -> isdir s q = true.

(** Hard links of one file carry the same data. *)
Definition links_consistent (s : tree) : Prop :=
  forall (p q : path) i d d',
    s !! p = Some (File i d) -> s !! q = Some (File i d') -> d = d'.

Lemma mkdir_each_id (now : Z) (s : tree) (ps : list path) :
  (forall q, q ∈ ps -> isdir s q = true) -> mkdir_each now s ps = Ok s.
Proof.
  induction ps as [|p0 ps IH]; intros Hd; simpl; [done|].
  pose proof (Hd p0 ltac:(left)) as Hp0. unfold isdir in Hp0.
  destruct (s !! p0) as [[i d|mt]|]; try done.
  apply IH. intros. apply Hd. by right.
Qed.

Lemma makedirs_id (now : Z) (s : tree) (p : path) :
  (forall q : path, q `prefix_of` p -> isdir s q = true) ->
  makedirs now s p true = Ok s.
Proof.
  intros Hd. unfold makedirs. rewrite (Hd p) by done.
  replace (exists_ s p && negb (true && true)) with false
    by (by destruct (exists_ s p)).
  apply mkdir_each_id.
  intros q Hq. by apply Hd, elem_of_prefixes.
Qed.

Lemma makedirs_prefix_dirs (now : Z) (s s' : tree) (p q : path) (ok : bool) :
  makedirs now s p ok = Ok s' -> q `prefix_of` p -> isdir s' q = true.
Proof.
  intros Hmk Hq. pose proof (makedirs_lookup _ _ _ _ _ Hmk q) as Hl.
  unfold makedirs in Hmk. destruct (_ && _); [done|].
  pose proof (mkdir_each_no_file _ _ _ _ Hmk q) as Hnf.
  unfold isdir, isfile in *. rewrite Hl.
  destruct (s !! q) as [[i d|mt]|].
  - discriminate Hnf. by apply elem_of_prefixes.
  - done.
  - by rewrite bool_decide_true.
Qed.

Lemma samefile_refl_file (s : tree) (p : path) i d :
  s !! p = Some (File i d) -> samefile s p p = Ok true.
Proof. intros Hp. unfold samefile. rewrite Hp. by rewrite bool_decide_true. Qed.

(** A file in place is left where it is. *)
Lemma sort_one_in_place (root : path) (st : sort_state) (p : path) :
  in_place root (st_fs st) p ->
  sort_one root st p
  = (SortState (st_fs st) (processed_count st) (skipped_count st)
       (st_log st ++ [InPlace p]), None).
Proof.
  intros (i & d & dt & Hp & Hdate & Hname & Hdirs).
  pose proof (makedirs_id clock _ _ Hdirs) as Hmk.
  destruct (sort_one_file root st p i d dt (st_fs st) Hp Hdate Hmk)
    as (n & Hstop & Hbusy & Hrun).
  rewrite <- Hname in Hstop, Hbusy, Hrun.
  destruct n as [|n].
  - simpl in Hrun. by rewrite bool_decide_true in Hrun.
  - specialize (Hbusy 0 ltac:(lia)). simpl in Hbusy.
    apply stops_false in Hbusy as [_ Hne].
    by rewrite (samefile_refl_file _ _ _ _ Hp) in Hne.
Qed.

(** Entries other than [p] that a step leaves as they were. *)
Definition frame (s s' : tree) (p : path) : Prop :=
  forall r : path, r <> p -> is_Some (s !! r) -> s' !! r = s !! r.

Lemma isdir_is_Some (s : tree) (p : path) : isdir s p = true -> is_Some (s !! p).
Proof. unfold isdir. destruct (s !! p); [eauto | done]. Qed.

Lemma isfile_is_Some (s : tree) (p : path) : isfile s p = true -> is_Some (s !! p).
Proof. unfold isfile. destruct (s !! p); [eauto | done]. Qed.

Lemma isfile_not_isdir (s : tree) (p : path) :
  isfile s p = true -> isdir s p = true -> False.
Proof. unfold isfile, isdir. by destruct (s !! p) as [[]|]. Qed.

Lemma in_place_frame (root : path) (s s' : tree) (p q : path) :
  isfile s p = true -> q <> p -> frame s s' p ->
  in_place root s q -> in_place root s' q.
Proof.
  intros Hp Hq Hfr (i & d & dt & Hlk & Hdate & Hname & Hdirs).
  assert (Hsame : s' !! q = s !! q) by (apply Hfr; [done | by rewrite Hlk]).
  exists i, d, dt. split_and!.
  - by rewrite Hsame.
  - by rewrite (get_photo_date_ext s' s q q).
  - done.
  - intros r Hr. specialize (Hdirs r Hr).
    assert (Hr' : s' !! r = s !! r).
    { apply Hfr; [|by apply isdir_is_Some].
      intros ->. by apply (isfile_not_isdir s p). }
    unfold isdir in *. by rewrite Hr'.
Qed.

Lemma isfile_frame (s s' : tree) (p q : path) :
  q <> p -> frame s s' p -> isfile s q = true -> isfile s' q = true.
Proof.
  intros Hq Hfr Hf.
  assert (Hq' : s' !! q = s !! q) by (apply Hfr; [done | by apply isfile_is_Some]).
  unfold isfile in *. by rewrite Hq'.
Qed.

Lemma frame_trans (s s1 s2 : tree) (p : path) :
  frame s s1 p -> frame s1 s2 p -> frame s s2 p.
Proof.
  intros H1 H2 r Hr Hsome. rewrite <- (H1 r Hr Hsome).
  apply H2; [done|]. by rewrite (H1 r Hr Hsome).
Qed.

Lemma makedirs_frame (now : Z) (s s' : tree) (p q : path) (ok : bool) :
  makedirs now s p ok = Ok s' -> frame s s' q.
Proof. intros Hmk r _ Hsome. by apply (makedirs_preserves _ _ _ _ _ _ Hmk). Qed.

Lemma makedirs_links (now : Z) (s s' : tree) (p : path) (ok : bool) :
  makedirs now s p ok = Ok s' -> links_consistent s -> links_consistent s'.
Proof.
  intros Hmk Hlc a b i d d' Ha Hb.
  rewrite (makedirs_lookup _ _ _ _ _ Hmk) in Ha, Hb. revert Ha Hb.
  destruct (s !! a) as [na|] eqn:Hsa; [|by destruct (bool_decide _)].
  destruct (s !! b) as [nb|] eqn:Hsb; [|by destruct (bool_decide _)].
  intros [= ->] [= ->]. by apply (Hlc a b i).
Qed.

Lemma move_links (s : tree) (p dst : path) i d :
  s !! p = Some (File i d) -> links_consistent s ->
  links_consistent (<[dst := File i d]> (delete p s)).
Proof.
  intros Hp Hlc a b j e e' Ha Hb.
  assert (Hold : forall c f, (<[dst := File i d]> (delete p s)) !! c
                             = Some (File j f) ->
                 exists c', s !! c' = Some (File j f)).
  { intros c f Hc. apply lookup_insert_Some in Hc as [[_ [= <- <-]] | [_ Hc]].
    - eauto.
    - apply lookup_delete_Some in Hc as [_ Hc]. eauto. }
  destruct (Hold a e Ha) as [a' Ha']. destruct (Hold b e' Hb) as [b' Hb'].
  by apply (Hlc a' b' j).
Qed.

Lemma candidate_join (d : path) (name : string) (n : nat) :
  let new_path := join d name in
  let dst := candidate new_path (splitext new_path).1 (splitext new_path).2 n in
  dst = join d (basename dst).
Proof.
  intros new_path dst.
  pose proof (dirname_candidate d name n) as Hdir. fold new_path dst in Hdir.
  assert (Hsnoc : exists l x, dst = l ++ [x]).
  { unfold dst, new_path. destruct n; simpl; unfold join, suffixed; eauto. }
  destruct Hsnoc as (l & x & Hdst). rewrite Hdst in Hdir |- *.
  unfold dirname, basename, join in *.
  rewrite removelast_last in Hdir. rewrite last_snoc. simpl. by subst.
Qed.

(** The destination tree is sorted when every regular file under the root
    is in place. *)
Definition sorted_tree (root : path) (s : tree) : Prop :=
  forall q : path, root `prefix_of` q -> isfile s q = true -> in_place root s q.

(** No regular file has two names. *)
Definition no_links (s : tree) : Prop :=
  forall (p q : path) i d d',
    s !! p = Some (File i d) -> s !! q = Some (File i d') -> p = q.

(** No regular file lies on the way to the root. *)
Definition clear (root : path) (s : tree) : Prop :=
  forall r : path, r `prefix_of` root -> isfile s r = false.

(** A path that is on the way to no day folder. *)
Definition off_the_way (root : path) (q : path) : Prop :=
  forall dt, ~ q `prefix_of` day_folder_of root dt.

(** What a second run finds at a path it has nothing to do for: nothing,
    a file in place, or a file without a date. *)
Definition settled (root : path) (s : tree) (p : path) : Prop :=
  s !! p = None \/ in_place root s p
  \/ (isfile s p = true /\ get_photo_date s p = None).


Lemma day_folder_length (root : path) (dt : datetime) :
  length (day_folder_of root dt) = length root + 3.
Proof. unfold day_folder_of, join. rewrite !length_app. simpl. lia. Qed.

Lemma root_prefix_day (root : path) (dt : datetime) :
  root `prefix_of` day_folder_of root dt.
Proof. unfold day_folder_of, join. rewrite <- !app_assoc. by eexists. Qed.

Lemma in_place_length (root : path) (s : tree) (q : path) :
  in_place root s q -> length q = length root + 4.
Proof.
  intros (i & d & dt & _ & _ & Hq & _). rewrite Hq. unfold join.
  rewrite length_app, day_folder_length. simpl. lia.
Qed.

Lemma in_place_under_root (root : path) (s : tree) (q : path) :
  in_place root s q -> root `prefix_of` q.
Proof.
  intros (i & d & dt & _ & _ & Hq & _). rewrite Hq.
  etrans; [apply (root_prefix_day root dt)|]. by eexists.
Qed.

(** A regular file of a sorted tree with a clear root is on the way to no
    day folder. *)
Lemma file_off_the_way (root : path) (s : tree) (q : path) :
  clear root s -> sorted_tree root s -> isfile s q = true ->
  off_the_way root q.
Proof.
  intros Hclear Hsorted Hq dt Hpre.
  destruct (prefix_weak_total q root (day_folder_of root dt) Hpre
              (root_prefix_day root dt)) as [Hqr | Hrq].
  - by rewrite (Hclear q Hqr) in Hq.
  - pose proof (in_place_length _ _ _ (Hsorted q Hrq Hq)) as Hlen.
    apply prefix_length in Hpre. rewrite day_folder_length in Hpre. lia.
Qed.

Lemma mkdir_each_Raise (now : Z) (ps : list path) (s : tree) e :
  mkdir_each now s ps = Raise e -> exists r, r ∈ ps /\ isfile s r = true.
Proof.
  revert s. induction ps as [|q ps IH]; intros s; simpl; [done|].
  destruct (s !! q) as [[i d|mt]|] eqn:Hq.
  - intros _. exists q. split; [by left|]. unfold isfile. by rewrite Hq.
  - intros (r & Hr & Hf)%IH. exists r. split; [by right | done].
  - intros (r & Hr & Hf)%IH. exists r. split; [by right|].
    unfold isfile in *. destruct (decide (r = q)) as [->|Hne].
    + by rewrite lookup_insert_eq in Hf.
    + by rewrite lookup_insert_ne in Hf.
Qed.

(** [makedirs] with [exist_ok] fails only on a regular file on the way. *)
Lemma makedirs_Raise_file (now : Z) (s : tree) (p : path) e :
  makedirs now s p true = Raise e ->
  exists r, r `prefix_of` p /\ isfile s r = true.
Proof.
  unfold makedirs. destruct (exists_ s p && negb (true && isdir s p)) eqn:Hc.
  - intros _. exists p. split; [done|].
    apply andb_true_iff in Hc as [Hex Hnd]. apply exists_true in Hex.
    unfold isdir, isfile in *. simpl in Hnd.
    destruct (s !! p) as [[i d|mt]|]; [done | done | by destruct Hex].
  - intros (r & Hr & Hf)%mkdir_each_Raise. exists r.
    split; [by apply elem_of_prefixes | done].
Qed.

(** And it does fail then. *)
Lemma makedirs_blocked (now : Z) (s : tree) (p r : path) (ok : bool) :
  r `prefix_of` p -> isfile s r = true ->
  makedirs now s p ok = Raise OtherOSError.
Proof.
  intros Hr Hf. destruct (makedirs now s p ok) as [s'|e] eqn:Hmk.
  - exfalso. unfold makedirs in Hmk. destruct (_ && _); [done|].
    apply elem_of_prefixes in Hr.
    by rewrite (mkdir_each_no_file _ _ _ _ Hmk r Hr) in Hf.
  - by rewrite (makedirs_raises_OSError _ _ _ _ _ Hmk).
Qed.

Lemma makedirs_clear (root : path) (s : tree) (dt : datetime) :
  clear root s -> sorted_tree root s ->
  exists s1, makedirs clock s (day_folder_of root dt) true = Ok s1.
Proof.
  intros Hclear Hsorted.
  destruct (makedirs clock s (day_folder_of root dt) true) as [s1|e] eqn:Hmk;
    [eauto|].
  destruct (makedirs_Raise_file _ _ _ _ Hmk) as (r & Hr & Hf).
  by destruct (file_off_the_way root s r Hclear Hsorted Hf dt).
Qed.

(** Entries that are there stay as they are. *)
Definition extends (s s' : tree) : Prop :=
  forall r : path, is_Some (s !! r) -> s' !! r = s !! r.

Lemma in_place_extends (root : path) (s s' : tree) (q : path) :
  extends s s' -> in_place root s q -> in_place root s' q.
Proof.
  intros Hext (i & d & dt & Hlk & Hdate & Hname & Hdirs).
  assert (Hsame : s' !! q = s !! q) by (apply Hext; by rewrite Hlk).
  exists i, d, dt. split_and!.
  - by rewrite Hsame.
  - by rewrite (get_photo_date_ext s' s q q).
  - done.
  - intros r Hr. specialize (Hdirs r Hr).
    assert (Hr' : s' !! r = s !! r) by (by apply Hext, isdir_is_Some).
    unfold isdir in *. by rewrite Hr'.
Qed.

Lemma makedirs_extends (now : Z) (s s' : tree) (p : path) (ok : bool) :
  makedirs now s p ok = Ok s' -> extends s s'.
Proof. intros Hmk r Hsome. by apply (makedirs_preserves _ _ _ _ _ _ Hmk). Qed.

(** [makedirs] creates no regular file. *)
Lemma makedirs_isfile (now : Z) (s s' : tree) (p q : path) (ok : bool) :
  makedirs now s p ok = Ok s' -> isfile s' q = isfile s q.
Proof.
  intros Hmk. unfold isfile. rewrite (makedirs_lookup _ _ _ _ _ Hmk).
  destruct (s !! q); [done|]. by case_bool_decide.
Qed.

Lemma makedirs_file (now : Z) (s s' : tree) (p q : path) (ok : bool) i d :
  makedirs now s p ok = Ok s' -> s' !! q = Some (File i d) ->
  s !! q = Some (File i d).
Proof.
  intros Hmk. rewrite (makedirs_lookup _ _ _ _ _ Hmk).
  destruct (s !! q); [done|]. by case_bool_decide.
Qed.

Lemma makedirs_sorted (now : Z) (root : path) (s s' : tree) (p : path)
    (ok : bool) :
  makedirs now s p ok = Ok s' -> sorted_tree root s -> sorted_tree root s'.
Proof.
  intros Hmk Hsorted q Hq Hf. rewrite (makedirs_isfile _ _ _ _ _ _ Hmk) in Hf.
  apply (in_place_extends root s); [by eapply makedirs_extends | by apply Hsorted].
Qed.

Lemma makedirs_keeps_clear (now : Z) (root : path) (s s' : tree) (p : path)
    (ok : bool) :
  makedirs now s p ok = Ok s' -> clear root s -> clear root s'.
Proof.
  intros Hmk Hclear r Hr. rewrite (makedirs_isfile _ _ _ _ _ _ Hmk).
  by apply Hclear.
Qed.

Lemma makedirs_no_links (now : Z) (s s' : tree) (p : path) (ok : bool) :
  makedirs now s p ok = Ok s' -> no_links s -> no_links s'.
Proof.
  intros Hmk Hnl a b i d d' Ha Hb.
  apply (makedirs_file _ _ _ _ _ _ _ _ Hmk) in Ha, Hb. by apply (Hnl a b i d d').
Qed.

Lemma no_links_consistent (s : tree) : no_links s -> links_consistent s.
Proof.
  intros Hnl p q i d d' Hp Hq.
  pose proof (Hnl p q i d d' Hp Hq) as ->. congruence.
Qed.



Lemma frame_refl (s : tree) (p : path) : frame s s p.
Proof. by intros r _ _. Qed.

Lemma extends_frame (s s' : tree) (p : path) : extends s s' -> frame s s' p.
Proof. intros Hext r _ Hsome. by apply Hext. Qed.

Lemma dst_not_prefix_root (root : path) (dt : datetime) (name : string) :
  ~ join (day_folder_of root dt) name `prefix_of` root.
Proof.
  intros Hpre%prefix_length. unfold join in Hpre.
  rewrite length_app, day_folder_length in Hpre. simpl in Hpre. lia.
Qed.

Lemma move_no_links (s : tree) (p dst : path) i d :
  s !! p = Some (File i d) -> no_links s ->
  no_links (<[dst := File i d]> (delete p s)).
Proof.
  intros Hp Hnl a b j e e' Ha Hb.
  assert (Hold : forall (c : path) f,
            (<[dst := File i d]> (delete p s)) !! c = Some (File j f) ->
            c = dst /\ j = i \/ c <> dst /\ c <> p /\ s !! c = Some (File j f)).
  { intros c f Hc. apply lookup_insert_Some in Hc as [[<- Heq] | [Hne Hc]].
    - left. split; [done|]. congruence.
    - right. apply lookup_delete_Some in Hc as [Hcp Hc]. done. }
  destruct (Hold a e Ha) as [[-> ->] | (Had & Hap & Ha')];
    destruct (Hold b e' Hb) as [[-> Hj] | (Hbd & Hbp & Hb')]; try done.
  - destruct Hbp. by apply (Hnl b p i e' d).
  - subst j. destruct Hap. by apply (Hnl a p i e d).
  - by apply (Hnl a b j e e').
Qed.

(** One step on a regular file, in a sorted tree with a clear root. *)
Lemma sort_one_clear (root : path) (st : sort_state) (p : path) i d :
  st_fs st !! p = Some (File i d) ->
  links_consistent (st_fs st) ->
  sorted_tree root (st_fs st) ->
  clear root (st_fs st) ->
  let r := sort_one root st p in
  r.2 = None
  /\ links_consistent (st_fs r.1)
  /\ sorted_tree root (st_fs r.1)
  /\ clear root (st_fs r.1)
  /\ frame (st_fs st) (st_fs r.1) p
  /\ (forall q : path, q <> p -> off_the_way root q -> st_fs st !! q = None ->
        st_fs r.1 !! q = None \/ in_place root (st_fs r.1) q)
  /\ (st_fs r.1 !! p = None \/ in_place root (st_fs r.1) p
      \/ (st_fs r.1 !! p = Some (File i d)
          /\ get_photo_date (st_fs st) p = None)
      \/ (st_fs r.1 !! p = Some (File i d)
          /\ exists (q : path) d', q <> p /\ st_fs st !! q = Some (File i d')))
  /\ (no_links (st_fs st) -> no_links (st_fs r.1)).
Proof.
  intros Hp Hlc Hsorted Hclear r.
  assert (Hfile : isfile (st_fs st) p = true) by (unfold isfile; by rewrite Hp).
  destruct (get_photo_date (st_fs st) p) as [dt|] eqn:Hdate.
  2:{ subst r. unfold sort_one.
      rewrite (proj2 (exists_true _ _)) by eauto. simpl. rewrite Hdate. simpl.
      split_and!; [done | done | done | done | apply frame_refl | by left | | done].
      right. right. left. done. }
  destruct (makedirs_clear root (st_fs st) dt Hclear Hsorted) as [s1 Hmk].
  assert (Hp1 : s1 !! p = Some (File i d)).
  { rewrite (makedirs_preserves _ _ _ _ _ _ Hmk); [done | by eauto]. }
  pose proof (makedirs_extends _ _ _ _ _ Hmk) as Hext1.
  pose proof (makedirs_links _ _ _ _ _ Hmk Hlc) as Hlc1.
  pose proof (makedirs_sorted _ root _ _ _ _ Hmk Hsorted) as Hsorted1.
  pose proof (makedirs_keeps_clear _ root _ _ _ _ Hmk Hclear) as Hclear1.
  assert (Hnew1 : forall q : path, off_the_way root q -> st_fs st !! q = None ->
                    s1 !! q = None).
  { intros q Hoff Hq. rewrite (makedirs_lookup _ _ _ _ _ Hmk), Hq.
    rewrite bool_decide_false; [done | apply Hoff]. }
  destruct (sort_one_file root st p i d dt s1 Hp Hdate Hmk)
    as (n & Hstop & Hbusy & Hrun).
  pose proof (candidate_join (day_folder_of root dt) (basename p) n) as Hjoin.
  simpl in Hjoin.
  set (dst := candidate _ _ _ n) in *.
  assert (Hdirs1 : forall q : path, q `prefix_of` day_folder_of root dt ->
                     isdir s1 q = true).
  { intros q Hq. by apply (makedirs_prefix_dirs _ _ _ _ _ _ Hmk). }
  subst r. rewrite Hrun. case_bool_decide as Heq; simpl.
  - (* the file is where it belongs *)
    split_and!; try done.
    + by apply extends_frame.
    + intros q _ Hoff Hq. left. by apply Hnew1.
    + right. left. exists i, d, dt. split_and!; [done | | | done].
      * by rewrite (get_photo_date_ext s1 (st_fs st) p p) by (by rewrite Hp1).
      * rewrite Heq at 1. rewrite Hjoin. by rewrite <- Heq.
    + intros Hnl. by apply (makedirs_no_links _ _ _ _ _ Hmk).
  - destruct (s1 !! dst) as [nd|] eqn:Hdst.
    + (* the name is held by a link of the file *)
      apply stops_true in Hstop as [Hfree | Hsame]; [congruence|].
      destruct (samefile_true_file _ _ _ _ _ Hp1 Hsame) as [d' Hd'].
      split_and!; try done.
      * by apply extends_frame.
      * intros q _ Hoff Hq. left. by apply Hnew1.
      * right. right. right. split; [done|]. exists dst, d'.
        split; [done|]. by apply (makedirs_file _ _ _ _ _ _ _ _ Hmk).
      * intros Hnl. by apply (makedirs_no_links _ _ _ _ _ Hmk).
    + (* the file moves to a free name *)
      set (s2 := <[dst := File i d]> (delete p s1)).
      assert (Hfr2 : frame s1 s2 p).
      { intros r Hr Hsome. unfold s2.
        rewrite lookup_insert_ne, lookup_delete_ne; [done | done |].
        intros <-. rewrite Hdst in Hsome. by destruct Hsome. }
      assert (Hfile1 : isfile s1 p = true) by (unfold isfile; by rewrite Hp1).
      assert (Hdst2 : in_place root s2 dst).
      { exists i, d, dt. unfold s2. split_and!; [by rewrite lookup_insert_eq | | done |].
        - rewrite (get_photo_date_ext _ (st_fs st) dst p); [done|].
          by rewrite lookup_insert_eq.
        - intros q Hq. pose proof (Hdirs1 q Hq) as Hd.
          assert (Hq' : (<[dst := File i d]> (delete p s1)) !! q = s1 !! q).
          { apply Hfr2; [|by apply isdir_is_Some].
            intros ->. unfold isdir in Hd. by rewrite Hp1 in Hd. }
          unfold isdir in *. by rewrite Hq'. }
      split_and!; try done.
      * by apply move_links.
      * intros q Hq Hf. destruct (decide (q = dst)) as [->|Hne]; [done|].
        assert (Hqp : q <> p).
        { intros ->. unfold isfile, s2 in Hf.
          by rewrite lookup_insert_ne, lookup_delete_eq in Hf. }
        apply (in_place_frame root s1 s2 p q); [done | done | done |].
        apply Hsorted1; [done|]. unfold isfile, s2 in Hf |- *.
        by rewrite lookup_insert_ne, lookup_delete_ne in Hf.
      * intros r Hr. unfold isfile, s2.
        rewrite lookup_insert_ne.
        2:{ intros <-. rewrite Hjoin in Hr. by apply dst_not_prefix_root in Hr. }
        destruct (decide (r = p)) as [->|Hne]; [by rewrite lookup_delete_eq|].
        rewrite lookup_delete_ne by done. by apply Hclear1.
      * apply (frame_trans _ s1); [by apply extends_frame | done].
      * intros q Hqp Hoff Hq. destruct (decide (q = dst)) as [->|Hne];
          [by right|]. left. unfold s2.
        rewrite lookup_insert_ne, lookup_delete_ne by done. by apply Hnew1.
      * left. unfold s2. rewrite lookup_insert_ne by done.
        by rewrite lookup_delete_eq.
      * intros Hnl. apply move_no_links; [done|].
        by apply (makedirs_no_links _ _ _ _ _ Hmk).
Qed.



Lemma in_place_frame_nodir (root : path) (s s' : tree) (p q : path) :
  isdir s p = false -> q <> p -> frame s s' p ->
  in_place root s q -> in_place root s' q.
Proof.
  intros Hp Hq Hfr (i & d & dt & Hlk & Hdate & Hname & Hdirs).
  assert (Hsame : s' !! q = s !! q) by (apply Hfr; [done | by rewrite Hlk]).
  exists i, d, dt. split_and!.
  - by rewrite Hsame.
  - by rewrite (get_photo_date_ext s' s q q).
  - done.
  - intros r Hr. specialize (Hdirs r Hr).
    assert (Hr' : s' !! r = s !! r).
    { apply Hfr; [|by apply isdir_is_Some]. intros ->. congruence. }
    unfold isdir in *. by rewrite Hr'.
Qed.

(** A path that is gone is skipped. *)
Lemma sort_one_gone (root : path) (st : sort_state) (p : path) :
  st_fs st !! p = None -> sort_one root st p = (skip st (st_fs st) p, None).
Proof.
  intros Hp. unfold sort_one. by rewrite (proj2 (exists_false _ _)).
Qed.

(** A step on a settled path leaves the file system alone and counts no
    move. *)
Lemma sort_one_settled (root : path) (st : sort_state) (p : path) :
  settled root (st_fs st) p ->
  exists st',
    sort_one root st p = (st', None)
    /\ st_fs st' = st_fs st /\ processed_count st' = processed_count st.
Proof.
  intros [Hgone | [Hin | [Hfile Hdate]]].
  - rewrite sort_one_gone by done. by eexists.
  - rewrite sort_one_in_place by done. by eexists.
  - unfold sort_one. rewrite (proj2 (exists_true _ _))
      by (by apply isfile_is_Some).
    simpl. rewrite Hdate. by eexists.
Qed.

Lemma settled_run (root : path) (l : list path) (st : sort_state) :
  Forall (settled root (st_fs st)) l ->
  let r := for_each_st (sort_one root) l st in
  r.2 = None /\ st_fs r.1 = st_fs st
  /\ processed_count r.1 = processed_count st.
Proof.
  revert st. induction l as [|p l IH]; intros st Hall; simpl; [done|].
  apply Forall_cons in Hall as [Hp Hall].
  destruct (sort_one_settled root st p Hp) as (st' & -> & Hfs & Hpc).
  rewrite <- Hfs, <- Hpc. apply IH. by rewrite Hfs.
Qed.

(** With a regular file on the way to the root no day folder can be
    made: every step is a skip. *)
Lemma sort_one_blocked (root : path) (st : sort_state) (p r : path) :
  r `prefix_of` root -> isfile (st_fs st) r = true ->
  exists st',
    sort_one root st p = (st', None)
    /\ st_fs st' = st_fs st /\ processed_count st' = processed_count st.
Proof.
  intros Hr Hf. unfold sort_one.
  destruct (exists_ (st_fs st) p); simpl; [|by eexists].
  destruct (get_photo_date (st_fs st) p) as [dt|]; [|by eexists].
  rewrite (makedirs_blocked _ _ _ r).
  - simpl. by eexists.
  - etrans; [done | apply root_prefix_day].
  - done.
Qed.

Lemma blocked_run (root : path) (l : list path) (st : sort_state) (r : path) :
  r `prefix_of` root -> isfile (st_fs st) r = true ->
  let res := for_each_st (sort_one root) l st in
  res.2 = None /\ st_fs res.1 = st_fs st
  /\ processed_count res.1 = processed_count st.
Proof.
  intros Hr. revert st. induction l as [|p l IH]; intros st Hf; simpl; [done|].
  destruct (sort_one_blocked root st p r Hr Hf) as (st' & -> & Hfs & Hpc).
  rewrite <- Hfs, <- Hpc. apply IH. by rewrite Hfs.
Qed.


(** The first run, in a sorted tree with a clear root. *)
Lemma clear_run (root : path) (l : list path) :
  forall (st : sort_state) (P : list path),
    links_consistent (st_fs st) ->
    sorted_tree root (st_fs st) ->
    clear root (st_fs st) ->
    (forall q, q ∈ l -> isdir (st_fs st) q = false) ->
    (forall q, q ∈ P ++ l -> off_the_way root q) ->
    let r := for_each_st (sort_one root) l st in
    r.2 = None
    /\ sorted_tree root (st_fs r.1)
    /\ (forall q : path, isdir (st_fs st) q = true -> isdir (st_fs r.1) q = true)
    /\ (no_links (st_fs st) -> Forall (settled root (st_fs st)) P ->
        Forall (settled root (st_fs r.1)) (P ++ l)).
Proof.
  induction l as [|p l IH]; intros st P Hlc Hsorted Hclear Hnd Hoff; simpl.
  { split_and!; try done. intros _ HP. by rewrite app_nil_r. }
  assert (Hstep : exists st',
            sort_one root st p = (st', None)
            /\ links_consistent (st_fs st')
            /\ sorted_tree root (st_fs st')
            /\ clear root (st_fs st')
            /\ frame (st_fs st) (st_fs st') p
            /\ (forall q : path, q <> p -> off_the_way root q ->
                  st_fs st !! q = None ->
                  st_fs st' !! q = None \/ in_place root (st_fs st') q)
            /\ isdir (st_fs st') p = false
            /\ (no_links (st_fs st) ->
                no_links (st_fs st') /\ settled root (st_fs st') p)).
  { destruct (st_fs st !! p) as [[i d|mt]|] eqn:Hp.
    - pose proof (sort_one_clear root st p i d Hp Hlc Hsorted Hclear) as Hs.
      simpl in Hs. destruct (sort_one root st p) as [st' e]. simpl in Hs.
      destruct Hs as (-> & Hlc' & Hs' & Hc' & Hfr & Hnew & Hp' & Hnl').
      exists st'. split_and!; try done.
      + unfold isdir.
        destruct Hp' as [-> | [(j & e & dt & -> & _) | [[-> _] | [-> _]]]]; done.
      + intros Hnl. split; [by apply Hnl'|].
        destruct Hp' as [Hg | [Hin | [[Hf Hdate] | [Hf (q & d' & Hq & Hlink)]]]].
        * by left.
        * by right; left.
        * right. right. split; [unfold isfile; by rewrite Hf|].
          rewrite <- Hdate. apply get_photo_date_ext. by rewrite Hf, Hp.
        * destruct Hq. by apply (Hnl q p i d' d).
    - specialize (Hnd p ltac:(by left)). unfold isdir in Hnd. by rewrite Hp in Hnd.
    - rewrite sort_one_gone by done. eexists. split; [done|]. simpl.
      split_and!; [done | done | done | apply frame_refl | | |].
      + intros q _ _ Hq. by left.
      + unfold isdir. by rewrite Hp.
      + intros Hnl. split; [done | by left]. }
  destruct Hstep as (st' & -> & Hlc' & Hs' & Hc' & Hfr & Hnew & Hpd & Hnl').
  assert (Hkeep : forall q : path, q <> p -> off_the_way root q ->
            settled root (st_fs st) q -> settled root (st_fs st') q).
  { intros q Hqp Hoffq [Hg | [Hin | [Hf Hdate]]].
    - destruct (Hnew q Hqp Hoffq Hg) as [? | ?]; [by left | by right; left].
    - right. left.
      apply (in_place_frame_nodir root (st_fs st) (st_fs st') p q); try done.
      apply Hnd. by left.
    - right. right.
      assert (Hq : st_fs st' !! q = st_fs st !! q)
        by (apply Hfr; [done | by apply isfile_is_Some]).
      split; [unfold isfile in *; by rewrite Hq|].
      rewrite <- Hdate. by apply get_photo_date_ext. }
  destruct (IH st' (P ++ [p]) Hlc' Hs' Hc') as (Hnone & Hsf & Hdirs & Hset).
  { intros q Hq. destruct (decide (q = p)) as [->|Hne]; [done|].
    pose proof (Hnd q ltac:(by right)) as Hd.
    destruct (st_fs st !! q) as [n|] eqn:Hsq.
    - assert (Hq' : st_fs st' !! q = st_fs st !! q) by (apply Hfr; by eauto).
      unfold isdir in *. rewrite Hq'. by rewrite Hsq in Hd |- *.
    - destruct (Hnew q Hne) as [Hg | (j & e & dt & Hin & _)]; [|done| |].
      + apply Hoff. apply elem_of_app. right. by right.
      + unfold isdir. by rewrite Hg.
      + unfold isdir. by rewrite Hin. }
  { intros q Hq. apply Hoff. rewrite <- app_assoc in Hq. done. }
  split; [done|]. split; [done|]. split.
  - intros q Hq. apply Hdirs.
    assert (Hq' : st_fs st' !! q = st_fs st !! q).
    { apply Hfr; [|by apply isdir_is_Some].
      intros ->. by rewrite (Hnd p ltac:(by left)) in Hq. }
    unfold isdir in *. by rewrite Hq'.
  - intros Hnl HP. destruct (Hnl' Hnl) as [Hnl1 Hp1].
    replace (P ++ p :: l) with ((P ++ [p]) ++ l) by (by rewrite <- app_assoc).
    apply Hset; [done|]. apply Forall_app. split; [|by constructor].
    rewrite Forall_forall in HP |- *. intros q Hq.
    destruct (decide (q = p)) as [->|Hne]; [done|].
    apply Hkeep; [done | | by apply HP].
    apply Hoff. apply elem_of_app. by left.
Qed.



(** The loop of the first run from a sorted tree: it never raises, leaves
    a sorted tree and keeps a root that is a directory; and when no file
    has two names, running the loop again moves nothing. *)
Lemma first_loop (root : path) (s0 : tree) (l : list path) :
  Forall (fun p => isfile s0 p = true) l ->
  links_consistent s0 ->
  sorted_tree root s0 ->
  let r := for_each_st (sort_one root) l (SortState s0 0 0 []) in
  r.2 = None
  /\ sorted_tree root (st_fs r.1)
  /\ (is_Some (s0 !! root) -> is_Some (st_fs r.1 !! root))
  /\ (no_links s0 ->
      forall pc sc log,
        let r2 := for_each_st (sort_one root) l
                    (SortState (st_fs r.1) pc sc log) in
        r2.2 = None /\ st_fs r2.1 = st_fs r.1 /\ processed_count r2.1 = pc).
Proof.
  intros Hfiles Hlc Hsorted.
  destruct (decide (Exists (fun r => isfile s0 r = true) (prefixes root)))
    as [Hblocked | Hclear].
  - apply Exists_exists in Hblocked as (b & Hb%elem_of_prefixes & Hf).
    destruct (blocked_run root l (SortState s0 0 0 []) b Hb Hf)
      as (Hnone & Hfs & _).
    simpl in *. rewrite Hfs. split_and!; try done.
    intros _ pc sc log.
    apply (blocked_run root l (SortState s0 pc sc log) b Hb Hf).
  - assert (Hclear' : clear root s0).
    { intros b Hb%elem_of_prefixes. apply not_true_is_false. intros Hf.
      apply Hclear. apply Exists_exists. eauto. }
    destruct (clear_run root l (SortState s0 0 0 []) [] Hlc Hsorted Hclear')
      as (Hnone & Hsf & Hdirs & Hset).
    { intros q Hq. rewrite Forall_forall in Hfiles. specialize (Hfiles q Hq).
      simpl in *. unfold isfile, isdir in *. by destruct (s0 !! q) as [[]|]. }
    { intros q Hq. rewrite Forall_forall in Hfiles.
      apply (file_off_the_way root s0); [done | done | by apply Hfiles]. }
    split_and!; try done.
    + intros Hroot. apply isdir_is_Some, Hdirs. simpl.
      specialize (Hclear' root ltac:(done)). unfold isfile, isdir in *.
      destruct Hroot as [n Hn]. rewrite Hn in Hclear' |- *. by destruct n.
    + intros Hnl pc sc log.
      apply (settled_run root l (SortState _ pc sc log)). simpl.
      by apply Hset.
Qed.


(** How a run starts: it stops at once on an empty list or when the
    root cannot be created, and else loops from the tree with the root. *)
Lemma sort_photos_start (s : tree) (l : list path) (root : path) :
  (sort_photos s l root = (SortState s 0 0 [], None)
   /\ (l = [] \/ (exists_ s root = false
                  /\ exists e, makedirs clock s root false = Raise e)))
  \/ (l <> []
      /\ exists s0,
           ((exists_ s root = true /\ s0 = s)
            \/ (exists_ s root = false /\ makedirs clock s root false = Ok s0))
           /\ sort_photos s l root
              = for_each_st (sort_one root) l (SortState s0 0 0 [])).
Proof.
  unfold sort_photos. case_bool_decide as Hnil; [by left; split; [|left]|].
  destruct (exists_ s root) eqn:Hex; simpl.
  { right. split; [done|]. exists s. split; [by left | done]. }
  destruct (makedirs clock s root false) as [s0|e] eqn:Hmk.
  - right. split; [done|]. exists s0. split; [by right | done].
  - left. rewrite (makedirs_raises_OSError _ _ _ _ _ Hmk). simpl.
    split; [done|]. right. split; [done|]. eauto.
Qed.

(** The first run from a sorted tree: it never raises and produces a
    sorted tree; and when no file has two names, a second run over the
    same list moves nothing and leaves the produced tree as it is. *)
Lemma first_run (s : tree) (image_paths : list path) (root : path) :
  Forall (fun p => isfile s p = true) image_paths ->
  links_consistent s ->
  sorted_tree root s ->
  let first := sort_photos s image_paths root in
  first.2 = None
  /\ sorted_tree root (st_fs first.1)
  /\ (no_links s ->
      let second := sort_photos (st_fs first.1) image_paths root in
      second.2 = None /\ st_fs second.1 = st_fs first.1
      /\ processed_count second.1 = 0).
Proof.
  intros Hfiles Hlc Hsorted first.
  assert (Hloop : forall s0,
            Forall (fun p => isfile s0 p = true) image_paths ->
            links_consistent s0 ->
            sorted_tree root s0 ->
            is_Some (s0 !! root) ->
            (no_links s -> no_links s0) ->
            image_paths <> [] ->
            let r := for_each_st (sort_one root) image_paths
                       (SortState s0 0 0 []) in
            r.2 = None
            /\ sorted_tree root (st_fs r.1)
            /\ (no_links s ->
                let second := sort_photos (st_fs r.1) image_paths root in
                second.2 = None /\ st_fs second.1 = st_fs r.1
                /\ processed_count second.1 = 0)).
  { intros s0 Hf0 Hlc0 Hs0 Hroot0 Hnl0 Hne.
    destruct (first_loop root s0 image_paths Hf0 Hlc0 Hs0)
      as (Hnone & Hsf & Hroot & Hagain).
    split_and!; [done | done |]. intros Hnl. unfold sort_photos.
    rewrite bool_decide_false by done.
    rewrite (proj2 (exists_true _ _) (Hroot Hroot0)). simpl.
    apply (Hagain (Hnl0 Hnl) 0 0 []). }
  destruct (sort_photos_start s image_paths root)
    as [[Heq Hwhy] | (Hne & s0 & Hs0 & Heq)]; subst first; rewrite Heq.
  - simpl. split_and!; [done | done |]. intros _.
    destruct (sort_photos_start s image_paths root)
      as [[-> _] | (Hne & s0 & Hs0 & Heq')]; [done|].
    destruct Hwhy as [-> | [Hex [e Hmk]]]; [done|].
    destruct Hs0 as [[Hex' _] | [_ Hmk']]; congruence.
  - destruct Hs0 as [[Hex ->] | [Hex Hmk]].
    + apply Hloop; try done. by apply exists_true.
    + apply Hloop; try done.
      * eapply Forall_impl; [exact Hfiles|]. intros q Hq. simpl in *.
        by rewrite (makedirs_isfile _ _ _ _ _ _ Hmk).
      * by eapply makedirs_links.
      * by eapply makedirs_sorted.
      * apply isdir_is_Some. by eapply makedirs_isdir.
      * intros Hnl. by eapply makedirs_no_links.
Qed.


End Idempotence.

Ltac case_lookup H :=
  repeat match type of H with
         | <[_ := _]> _ !! _ = Some _ =>
             apply lookup_insert_Some in H; destruct H as [[<- H] | [_ H]]
         | ∅ !! _ = Some _ => by rewrite lookup_empty in H
         end.

Lemma dup_tree_no_links : no_links dup_tree.
Proof.
  intros p q i d d' Hp Hq. unfold dup_tree in Hp, Hq.
  case_lookup Hp; case_lookup Hq; congruence.
Qed.

Lemma dup_tree_sorted : sorted_tree (H := sample_platform) ["out"] dup_tree.
Proof.
  intros q [k ->] Hf. exfalso.
  apply isfile_is_Some in Hf as [n Hq]. unfold dup_tree in Hq.
  repeat (apply lookup_insert_Some in Hq as [[Heq _] | [_ Hq]];
          [simpl in Heq; discriminate Heq|]).
  by rewrite lookup_empty in Hq.
Qed.



Example sort_photos_album_log :
  st_log (sort_photos (H := sample_platform) album
            [["in"; "x.jpg"]; ["in2"; "x.jpg"]; ["in3"; "x.jpg"];
             ["in3"; "old.jpg"]; ["in3"; "scan.png"]] ["out"]).1
  = [Sorted ["in"; "x.jpg"] (day_17 ++ ["x_1.jpg"]);
     Sorted ["in2"; "x.jpg"] (day_17 ++ ["x.jpg"]);
     Sorted ["in3"; "x.jpg"] (day_17 ++ ["x_2.jpg"]);
     Sorted ["in3"; "old.jpg"] ["out"; "999"; "01"; "01"; "old.jpg"];
     Sorted ["in3"; "scan.png"] ["out"; "2019"; "01"; "02"; "scan.png"]].
Proof. reflexivity. Qed.

(** An action the script does not know, on the two copies of [dup_tree]. *)
Lemma handle_duplicates_unknown_action_witness :
  let groups := [("1.88", [["pics"; "a.jpg"]; ["pics"; "b.jpg"]])] in
  (handle_duplicates (H := sample_platform) dup_tree ["o"] groups "archive"
     ["dups"]).1
  = (handle_duplicates (H := sample_platform) dup_tree ["o"] groups "list"
       ["dups"]).1
  /\ exists r,
       (handle_duplicates (H := sample_platform) dup_tree ["o"] groups "archive"
          ["dups"]).1
       = (HdState dup_tree 0 0 ["o"] [], r).
Proof.
  intros groups.
  apply (handle_duplicates_unknown_action (H := sample_platform) dup_tree ["o"]
           groups "archive" ["dups"]); discriminate.
Defined.

(** ** Further properties of the program *)

(** *** Hashing depends on the bytes only *)

Section HashContent.
Context `{Platform}.

(** X1. The digest of a regular file that can be read to its end depends
    on its bytes only: whatever the trees, the paths, the inodes, the
    timestamps and the (positive) block sizes, two files with the same
    content get the same result, the digest of that content. *)
Theorem calculate_hash_content_only (s s' : tree) (p p' : path)
    (bs bs' : nat) i d i' d' :
  0 < bs -> 0 < bs' ->
  s !! p = Some (File i d) -> readable d = true -> read_error_at d = None ->
  s' !! p' = Some (File i' d') -> readable d' = true -> read_error_at d' = None ->
  content d = content d' ->
  calculate_hash s p bs = Ok (Some (md5_hexdigest (content d)))
  /\ calculate_hash s' p' bs' = calculate_hash s p bs.
Proof.
  intros Hbs Hbs' Hp Hr He Hp' Hr' He' Hc.
  assert (Hone : forall t q n j e,
            0 < n -> t !! q = Some (File j e) -> readable e = true ->
            read_error_at e = None ->
            calculate_hash t q n = Ok (Some (md5_hexdigest (content e)))).
  { intros t q n j e Hn Hq Hre Hee. unfold calculate_hash.
    destruct (hash_file_spec t q n j e Hn Hq Hre) as [-> | [Hsome _]]; [done|].
    rewrite Hee in Hsome. by destruct Hsome. }
  rewrite (Hone s p bs i d), (Hone s' p' bs' i' d') by done.
  by rewrite Hc.
Qed.

End HashContent.

(** The two copies of [dup_tree], read byte by byte and in 4 KiB blocks. *)
Lemma calculate_hash_content_only_witness :
  calculate_hash (H := sample_platform) dup_tree ["pics"; "a.jpg"] 1
  = Ok (Some (toy_digest [x58]))
  /\ calculate_hash (H := sample_platform) dup_tree ["pics"; "b.jpg"] 4096
     = calculate_hash (H := sample_platform) dup_tree ["pics"; "a.jpg"] 1.
Proof.
  apply (calculate_hash_content_only (H := sample_platform) dup_tree dup_tree
           ["pics"; "a.jpg"] ["pics"; "b.jpg"] 1 4096
           1 (plain [x58] 1546387200) 2 (plain [x58] 1546387200));
    first [reflexivity | lia].
Defined.

(** *** Detection is complete *)

Section Completeness.
Context `{Platform}.

(** The second phase of [find_duplicates], over the size buckets. *)
Definition dups_fold (s : tree) (fbs : list (nat * list path))
    (dups : list (string * list path)) : list (string * list path) :=
  foldl (fun dups '(_, file_list) =>
           if bool_decide (1 < length file_list)
           then store_groups dups (foldl (group_step (digest_of s)) [] file_list)
           else dups) dups fbs.

Lemma find_duplicates_pure (s : tree) (l : list path) :
  find_duplicates s l
  = Ok (dups_fold s (foldl (group_step (size_of s)) [] l) []).
Proof.
  unfold find_duplicates. rewrite files_by_size_eq. simpl.
  apply for_each_Ok. intros dups [sz fl] _.
  case_bool_decide; [|done]. by rewrite files_by_hash_eq.
Qed.

Lemma store_groups_mono (dups fbh : list (string * list path)) (h : string) :
  is_Some (Dict.get h dups) -> is_Some (Dict.get h (store_groups dups fbh)).
Proof.
  unfold store_groups. revert dups.
  induction fbh as [|[h0 g0] fbh IH]; intros dups Hd; simpl; [done|].
  apply IH. case_bool_decide; [|done]. rewrite get_set. by case_decide.
Qed.

Lemma store_groups_new (dups fbh : list (string * list path)) (h : string)
    (g : list path) :
  (h, g) ∈ fbh -> 1 < length g ->
  is_Some (Dict.get h (store_groups dups fbh)).
Proof.
  unfold store_groups. revert dups.
  induction fbh as [|[h0 g0] fbh IH]; intros dups Hin Hlen; simpl.
  { by apply elem_of_nil in Hin. }
  apply elem_of_cons in Hin as [[= <- <-] | Hin]; [|by apply IH].
  rewrite bool_decide_true by done.
  apply (store_groups_mono _ fbh). rewrite get_set. by rewrite decide_True.
Qed.

Lemma dups_fold_mono (s : tree) (fbs : list (nat * list path))
    (dups : list (string * list path)) (h : string) :
  is_Some (Dict.get h dups) -> is_Some (Dict.get h (dups_fold s fbs dups)).
Proof.
  unfold dups_fold. revert dups.
  induction fbs as [|[sz fl] fbs IH]; intros dups Hd; simpl; [done|].
  apply IH. case_bool_decide; [|done]. by apply store_groups_mono.
Qed.

Lemma dups_fold_new (s : tree) (fbs : list (nat * list path))
    (dups : list (string * list path)) (h : string) (sz : nat)
    (fl g : list path) :
  (sz, fl) ∈ fbs -> 1 < length fl ->
  (h, g) ∈ foldl (group_step (digest_of s)) [] fl -> 1 < length g ->
  is_Some (Dict.get h (dups_fold s fbs dups)).
Proof.
  unfold dups_fold. revert dups.
  induction fbs as [|[sz0 fl0] fbs IH]; intros dups Hin Hfl Hg Hlen; simpl.
  { by apply elem_of_nil in Hin. }
  apply elem_of_cons in Hin as [[= <- <-] | Hin]; [|by apply IH].
  rewrite bool_decide_true by done.
  apply (dups_fold_mono s fbs). by apply (store_groups_new _ _ h g).
Qed.

Lemma filter_ext_in {A : Type} (P Q : A -> Prop) `{!forall x, Decision (P x)}
    `{!forall x, Decision (Q x)} (l : list A) :
  (forall x, x ∈ l -> P x <-> Q x) -> filter P l = filter Q l.
Proof.
  induction l as [|x l IH]; intros Hpq; [done|].
  rewrite !filter_cons. rewrite IH by (intros; apply Hpq; by right).
  destruct (decide (P x)) as [Hp|Hp], (decide (Q x)) as [Hq|Hq]; try done.
  - exfalso. apply Hq, Hpq; [by left | done].
  - exfalso. apply Hp, Hpq; [by left | done].
Qed.

Lemma get_group_Some {K A : Type} `{EqDecision K} (key : A -> option K)
    (l : list A) (k : K) :
  filter (fun x => key x = Some k) l <> [] ->
  Dict.get k (foldl (group_step key) [] l)
  = Some (filter (fun x => key x = Some k) l).
Proof. intros Hne. rewrite get_group. simpl. by destruct (filter _ l). Qed.

(** X2. Detection is complete: when at least two entries of the input
    list have the digest [h], and every entry with that digest has the
    size [sz], the result maps [h] to exactly the entries with that digest,
    in the order of the list. *)
Theorem find_duplicates_complete (s : tree) (image_paths : list path)
    (h : string) (sz : nat) :
  h <> "" ->
  (forall p, p ∈ image_paths ->
     calculate_hash s p default_blocksize = Ok (Some h) -> getsize s p = Ok sz) ->
  2 <= length (filter (fun p => calculate_hash s p default_blocksize
                               = Ok (Some h)) image_paths) ->
  exists duplicates,
    find_duplicates s image_paths = Ok duplicates
    /\ (h, filter (fun p => calculate_hash s p default_blocksize = Ok (Some h))
            image_paths) ∈ duplicates.
Proof.
  intros Hne Hsize Hlen.
  set (F := filter (fun p => calculate_hash s p default_blocksize = Ok (Some h))
              image_paths) in *.
  assert (HF : F = filter (fun p => digest_of s p = Some h
                                    /\ size_of s p = Some sz) image_paths).
  { unfold F. apply filter_ext_in. intros p Hp.
    rewrite digest_of_Some, size_of_Some. split; [|tauto].
    intros Hh. split; [done|]. by apply Hsize. }
  assert (Hfl : filter (fun p => size_of s p = Some sz) image_paths <> []).
  { intros Hnil. rewrite HF, <- list_filter_filter, Hnil in Hlen.
    simpl in Hlen. lia. }
  set (fl := filter (fun p => size_of s p = Some sz) image_paths) in *.
  assert (HFfl : F = filter (fun p => digest_of s p = Some h) fl).
  { rewrite HF. unfold fl. by rewrite list_filter_filter. }
  rewrite find_duplicates_pure. eexists. split; [done|].
  set (fbs := foldl (group_step (size_of s)) [] image_paths).
  assert (Hex : is_Some (Dict.get h (dups_fold s fbs []))).
  { apply (dups_fold_new s fbs [] h sz fl F).
    - apply elem_of_get; [apply keys_group_NoDup; constructor|].
      by apply get_group_Some.
    - pose proof (length_filter (fun p => digest_of s p = Some h) fl).
      rewrite <- HFfl in *. lia.
    - apply elem_of_get; [apply keys_group_NoDup; constructor|].
      rewrite HFfl. apply get_group_Some. rewrite <- HFfl.
      intros Hnil. rewrite Hnil in Hlen. simpl in Hlen. lia.
    - lia. }
  destruct Hex as [g Hg].
  destruct (find_duplicates_groups s image_paths) as (groups & Heq & Hnd & Hgr).
  rewrite find_duplicates_pure in Heq. injection Heq as <-.
  apply elem_of_get; [done|]. rewrite Hg. f_equal.
  destruct (Hgr h g Hg) as [Hglen [sz' Hgf]].
  rewrite Hgf, HF. apply filter_ext_in. intros p Hp.
  destruct g as [|q g']; [simpl in Hglen; lia|].
  assert (Hq : q ∈ q :: g') by left. rewrite Hgf in Hq.
  apply list_elem_of_filter in Hq as [[Hqd Hqs] Hql].
  assert (sz' = sz).
  { apply digest_of_Some in Hqd as [Hqd _]. apply size_of_Some in Hqs.
    pose proof (Hsize q Hql Hqd) as Hqsz. congruence. }
  by subst.
Qed.

End Completeness.

(** The two copies of [dup_tree]. *)
Lemma find_duplicates_complete_witness :
  let l := [["pics"; "a.jpg"]; ["pics"; "b.jpg"]] in
  exists duplicates,
    find_duplicates (H := sample_platform) dup_tree l = Ok duplicates
    /\ ("1.88", filter (fun p => calculate_hash (H := sample_platform) dup_tree p
                                  default_blocksize = Ok (Some "1.88")) l)
       ∈ duplicates.
Proof.
  intros l.
  apply (find_duplicates_complete (H := sample_platform) dup_tree l "1.88" 1).
  - discriminate.
  - intros p Hp _. apply list_elem_of_In in Hp. simpl in Hp.
    destruct Hp as [<- | [<- | []]]; reflexivity.
  - apply Nat.leb_le. reflexivity.
Defined.

(** *** What the delete and relocate branches touch *)

Section ResolverFrame.
Context `{Platform}.

Lemma delete_duplicate_cases (st : hd_state) (dup : path) :
  delete_duplicate st dup
  = match hd_fs st !! dup with
    | Some (File _ _) =>
        (HdState (delete dup (hd_fs st)) (moved_count st)
           (S (deleted_count st)) (stdin st) (hd_log st ++ [Deleted dup]), None)
    | _ => (st, None)
    end.
Proof.
  unfold delete_duplicate, remove, exists_.
  destruct (hd_fs st !! dup) as [[i d|mt]|] eqn:Hd.
  - by rewrite bool_decide_true by eauto.
  - by rewrite bool_decide_true by eauto.
  - rewrite bool_decide_false; [done|]. by intros [? ?].
Qed.

(** What the delete branch maintains with respect to the initial tree
    [s0]: an entry is as it was, or it was a regular file listed as a
    candidate and is gone; and the log holds deletions of such files
    only. *)
Definition delete_inv (C : list path) (s0 : tree) (st : hd_state) : Prop :=
  (forall q : path,
     hd_fs st !! q = s0 !! q
     \/ (hd_fs st !! q = None /\ isfile s0 q = true /\ q ∈ C))
  /\ (forall e, e ∈ hd_log st ->
        exists c, e = Deleted c /\ c ∈ C /\ isfile s0 c = true).

Lemma delete_duplicate_inv (C : list path) (s0 : tree) (st : hd_state)
    (dup : path) :
  dup ∈ C -> delete_inv C s0 st -> delete_inv C s0 (delete_duplicate st dup).1.
Proof.
  intros Hdup [Hfs Hlog]. rewrite delete_duplicate_cases.
  destruct (hd_fs st !! dup) as [[i d|mt]|] eqn:Hd; try done.
  assert (Hfile : isfile s0 dup = true).
  { destruct (Hfs dup) as [Heq | [Hnone _]]; [|congruence].
    unfold isfile. by rewrite <- Heq, Hd. }
  split; simpl.
  - intros q. destruct (decide (q = dup)) as [->|Hne].
    + right. by rewrite lookup_delete_eq.
    + rewrite lookup_delete_ne by done. apply Hfs.
  - intros e [He | He]%elem_of_app; [by apply Hlog|].
    apply list_elem_of_singleton in He. subst e. eauto.
Qed.

Lemma handle_group_delete_inv (C : list path) (s0 : tree) (target : path)
    (st : hd_state) (g : string * list path) :
  (forall c, c ∈ tail g.2 -> c ∈ C) ->
  delete_inv C s0 st ->
  delete_inv C s0 (handle_group "delete" target st g).1.
Proof.
  intros Hsub Hinv. destruct g as [h [|original cands]]; simpl; [done|].
  case_bool_decide; [done|]. simpl.
  destruct (stdin st) as [|line rest]; [done|].
  case_bool_decide; [|done].
  apply for_each_st_inv; [done|].
  intros st' c Hc. apply delete_duplicate_inv. by apply Hsub.
Qed.

(** X3. Under the ["delete"] action, whatever is typed at the prompts, an
    entry of the file system is left exactly as it was unless it is a
    regular file listed as a candidate (a non-first member of a group), in
    which case it may be gone: nothing is created, moved or overwritten,
    no directory is removed, and the log holds deletions of such files
    only. *)
Theorem delete_only_removes_candidates (s : tree) (console : list string)
    (groups : list (string * list path)) (target : path) :
  let st := (handle_duplicates s console groups "delete" target).1.1 in
  (forall q : path,
     hd_fs st !! q = s !! q
     \/ (hd_fs st !! q = None /\ isfile s q = true /\ q ∈ candidates groups))
  /\ (forall e, e ∈ hd_log st ->
        exists c, e = Deleted c /\ c ∈ candidates groups /\ isfile s c = true).
Proof.
  intros st. subst st. unfold handle_duplicates.
  assert (Hinit : delete_inv (candidates groups) s (HdState s 0 0 console [])).
  { split; simpl; [by left | by intros ? ?%elem_of_nil]. }
  case_bool_decide; [exact Hinit|].
  rewrite (bool_decide_false ("delete" = "move")) by done. simpl.
  apply (for_each_st_inv (delete_inv (candidates groups) s)); [done|].
  intros st g Hg. apply handle_group_delete_inv.
  intros c Hc. unfold candidates. apply list_elem_of_bind. eauto.
Qed.

Lemma delete_run_clears (cands : list path) (st : hd_state) :
  let r := for_each_st delete_duplicate cands st in
  r.2 = None
  /\ stdin r.1 = stdin st
  /\ (forall c, c ∈ cands -> isfile (hd_fs r.1) c = false)
  /\ (forall q : path,
        hd_fs r.1 !! q = hd_fs st !! q
        \/ (hd_fs r.1 !! q = None /\ q ∈ cands /\ isfile (hd_fs st) q = true)).
Proof.
  revert st. induction cands as [|c cands IH]; intros st; simpl.
  { split_and!; [done | done | by intros ? ?%elem_of_nil | by left]. }
  rewrite delete_duplicate_cases.
  destruct (hd_fs st !! c) as [[i d|mt]|] eqn:Hc.
  - destruct (IH (HdState (delete c (hd_fs st)) (moved_count st)
                    (S (deleted_count st)) (stdin st)
                    (hd_log st ++ [Deleted c]))) as (Hn & Hin & Hgone & Hfr).
    simpl in *. split_and!; [done | done | |].
    + intros q [->|Hq]%elem_of_cons; [|by apply Hgone].
      destruct (Hfr c) as [Heq | [Heq _]]; unfold isfile; rewrite Heq;
        [by rewrite lookup_delete_eq | done].
    + intros q. destruct (Hfr q) as [Heq | (Heq & Hq & Hf)].
      * destruct (decide (q = c)) as [->|Hne].
        -- right. rewrite Heq, lookup_delete_eq. split; [done|].
           split; [by left|]. unfold isfile. by rewrite Hc.
        -- left. by rewrite Heq, lookup_delete_ne.
      * right. split; [done|]. split; [by right|].
        unfold isfile in *. destruct (decide (q = c)) as [->|Hne].
        -- by rewrite Hc.
        -- by rewrite lookup_delete_ne in Hf.
  - destruct (IH st) as (Hn & Hin & Hgone & Hfr).
    split_and!; [done | done | |].
    + intros q [->|Hq]%elem_of_cons; [|by apply Hgone].
      destruct (Hfr c) as [Heq | [Heq _]]; unfold isfile; rewrite Heq;
        [by rewrite Hc | done].
    + intros q. destruct (Hfr q) as [Heq | (Heq & Hq & Hf)]; [by left|].
      right. split; [done|]. split; [by right | done].
  - destruct (IH st) as (Hn & Hin & Hgone & Hfr).
    split_and!; [done | done | |].
    + intros q [->|Hq]%elem_of_cons; [|by apply Hgone].
      destruct (Hfr c) as [Heq | [Heq _]]; unfold isfile; rewrite Heq;
        [by rewrite Hc | done].
    + intros q. destruct (Hfr q) as [Heq | (Heq & Hq & Hf)]; [by left|].
      right. split; [done|]. split; [by right | done].
Qed.

(** X4. A group whose prompt is answered ["o"] or ["O"] loses every
    candidate that is a regular file: the pass never raises, consumes the
    one line, and afterwards no candidate of the group is a regular file,
    while every other entry, and every directory, is as before. *)
Theorem delete_confirmed_group (target : path) (st : hd_state) (h : string)
    (original : path) (cands : list path) (line : string)
    (rest : list string) :
  cands <> [] ->
  stdin st = line :: rest ->
  line = "o" \/ line = "O" ->
  exists st',
    handle_group "delete" target st (h, original :: cands) = (st', None)
    /\ stdin st' = rest
    /\ (forall c, c ∈ cands -> isfile (hd_fs st') c = false)
    /\ (forall q : path,
          hd_fs st' !! q = hd_fs st !! q
          \/ (hd_fs st' !! q = None /\ q ∈ cands /\ isfile (hd_fs st) q = true)).
Proof.
  intros Hne Hin Hline. unfold handle_group.
  rewrite bool_decide_false by done. simpl. rewrite Hin.
  rewrite bool_decide_true by (by apply lower_o).
  set (st1 := HdState (hd_fs st) (moved_count st) (deleted_count st) rest
                (hd_log st)).
  destruct (delete_run_clears cands st1) as (Hn & Hstd & Hgone & Hfr).
  destruct (for_each_st delete_duplicate cands st1) as [st' r]. simpl in *.
  subst r. exists st'. done.
Qed.

End ResolverFrame.

Lemma delete_confirmed_group_witness :
  let a := ["pics"; "a.jpg"] in
  let b := ["pics"; "b.jpg"] in
  let st := HdState dup_tree 0 0 ["O"; "n"] [] in
  exists st',
    handle_group (H := sample_platform) "delete" ["dups"] st ("1.88", a :: [b])
    = (st', None)
    /\ stdin st' = ["n"]
    /\ (forall c, c ∈ [b] -> isfile (hd_fs st') c = false)
    /\ (forall q : path,
          hd_fs st' !! q = hd_fs st !! q
          \/ (hd_fs st' !! q = None /\ q ∈ [b] /\ isfile (hd_fs st) q = true)).
Proof.
  intros a b st.
  apply (delete_confirmed_group (H := sample_platform) ["dups"] st "1.88" a [b]
           "O" ["n"]); [discriminate | reflexivity | by right].
Defined.

(** *** The counters and the log *)

Section Counters.
Context `{Platform}.








End Counters.

(** *** Relocation loses no file *)

Section RelocateKeeps.
Context `{Platform}.

(** Every regular file of [s0] is still somewhere in the tree. *)
Definition keeps_files (s0 s : tree) : Prop :=
  forall (p : path) i d, s0 !! p = Some (File i d) ->
    exists p' : path, s !! p' = Some (File i d).

Lemma keeps_files_move (s0 s : tree) (src dst : path) i d :
  s !! src = Some (File i d) -> s !! dst = None ->
  keeps_files s0 s -> keeps_files s0 (<[dst := File i d]> (delete src s)).
Proof.
  intros Hsrc Hdst Hk p j e Hp. destruct (Hk p j e Hp) as [p' Hp'].
  destruct (decide (p' = src)) as [->|Hne].
  - exists dst. rewrite lookup_insert_eq. congruence.
  - exists p'. rewrite lookup_insert_ne, lookup_delete_ne; [done | done |].
    intros <-. congruence.
Qed.

Lemma move_duplicate_keeps (C : list path) (s0 s00 : tree) (target : path)
    (st : hd_state) (dup : path) :
  dup ∈ C ->
  relocate_inv C s0 st /\ keeps_files s00 (hd_fs st) ->
  relocate_inv C s0 (move_duplicate target st dup).1
  /\ keeps_files s00 (hd_fs (move_duplicate target st dup).1).
Proof.
  intros Hdup [Hinv Hk]. split; [by apply move_duplicate_inv|].
  destruct (hd_fs st !! dup) as [[i d|mt]|] eqn:Hl.
  - destruct (move_duplicate_file target st dup i d Hl) as (n & Hfree & _ & ->).
    destruct (isdir (hd_fs st) target); [|done]. simpl.
    by apply keeps_files_move.
  - destruct Hinv as (Hdir & _). specialize (Hdir dup Hdup).
    unfold isdir in Hdir. by rewrite Hl in Hdir.
  - unfold move_duplicate. by rewrite (proj2 (exists_false _ _)).
Qed.

(** X6. Relocation loses no file: when no candidate is a directory (nor
    lies on the way to the target folder), every regular file of the
    initial tree is still in the final tree, with its inode and its data,
    under its old path or a new one. *)
Theorem relocate_keeps_files (s : tree) (console : list string)
    (groups : list (string * list path)) (target : path) :
  (forall c, c ∈ candidates groups ->
     isdir s c = false /\ ~ c `prefix_of` target) ->
  let st := (handle_duplicates s console groups "move" target).1.1 in
  forall (p : path) i d, s !! p = Some (File i d) ->
    exists p' : path, hd_fs st !! p' = Some (File i d).
Proof.
  intros Hc st. subst st. unfold handle_duplicates.
  case_bool_decide as Hg; [by eauto|].
  rewrite bool_decide_true by done. simpl.
  assert (Hrun : forall s0,
            (forall c, c ∈ candidates groups -> isdir s0 c = false) ->
            keeps_files s s0 ->
            keeps_files s
              (hd_fs (for_each_st (handle_group "move" target) groups
                        (HdState s0 0 0 console [])).1)).
  { intros s0 Hdir Hk.
    apply (for_each_st_inv
             (fun st => relocate_inv (candidates groups) s0 st
                        /\ keeps_files s (hd_fs st))).
    - split; [|done]. split_and!; simpl; [done | done |].
      by intros ?? ?%elem_of_nil.
    - intros st [h [|original cands]] Hin Hinv; simpl; [done|].
      case_bool_decide; [done|]. simpl.
      apply (for_each_st_inv
               (fun st => relocate_inv (candidates groups) s0 st
                          /\ keeps_files s (hd_fs st))); [done|].
      intros st' c Hcin. apply move_duplicate_keeps.
      unfold candidates. apply list_elem_of_bind.
      exists (h, original :: cands). by split. }
  destruct (exists_ s target) eqn:Hex; simpl.
  - apply Hrun; [intros c Hin; by apply Hc | by intros p i d ?; eauto].
  - destruct (makedirs clock s target false) as [s'|e] eqn:Hmk; simpl.
    + apply Hrun.
      * intros c Hin. destruct (Hc c Hin) as [Hd Hp]. unfold isdir in *.
        rewrite (makedirs_lookup _ _ _ _ _ Hmk).
        destruct (s !! c); [done|]. by rewrite bool_decide_false.
      * intros p i d Hp. exists p.
        rewrite (makedirs_preserves _ _ _ _ _ _ Hmk); [done | by eauto].
    + rewrite (makedirs_raises_OSError _ _ _ _ _ Hmk). simpl.
      destruct (for_each_st_inert (handle_group "list" target) groups
                  (HdState s 0 0 console [])) as [r ->].
      { intros g _. apply handle_group_list_inert. }
      simpl. by eauto.
Qed.

End RelocateKeeps.

(** The copy [b.jpg] of [dup_tree] is still there after the relocation. *)
Lemma relocate_keeps_files_witness :
  let groups := [("1.88", [["pics"; "a.jpg"]; ["pics"; "b.jpg"]])] in
  let st := (handle_duplicates (H := sample_platform) dup_tree [] groups "move"
               ["dups"]).1.1 in
  exists p' : path, hd_fs st !! p' = Some (File 2 (plain [x58] 1546387200)).
Proof.
  intros groups.
  apply (relocate_keeps_files (H := sample_platform) dup_tree [] groups ["dups"])
    with (p := ["pics"; "b.jpg"]); [|reflexivity].
  intros c Hc. apply list_elem_of_In in Hc. simpl in Hc.
  destruct Hc as [<- | []]. split; [reflexivity|].
  intros [r Hr]. discriminate Hr.
Defined.

(** *** What sorting touches *)

Section SortFrame.
Context `{Platform}.

Lemma keeps_files_refl (s : tree) : keeps_files s s.
Proof. intros p i d Hp. eauto. Qed.

Lemma keeps_files_trans (s0 s1 s2 : tree) :
  keeps_files s0 s1 -> keeps_files s1 s2 -> keeps_files s0 s2.
Proof. intros H1 H2 p i d Hp. destruct (H1 p i d Hp) as [p' Hp']. eauto. Qed.

Lemma keeps_files_makedirs (now : Z) (s s' : tree) (p : path) (ok : bool) :
  makedirs now s p ok = Ok s' -> keeps_files s s'.
Proof.
  intros Hmk q i d Hq. exists q.
  rewrite (makedirs_preserves _ _ _ _ _ _ Hmk); [done | by eauto].
Qed.

(** The effect of one step on a regular file: it never raises, leaves
    every other entry as it was, and loses no file. *)
Lemma sort_one_effect (root : path) (st : sort_state) (p : path) :
  isfile (st_fs st) p = true ->
  exists st',
    sort_one root st p = (st', None)
    /\ frame (st_fs st) (st_fs st') p
    /\ keeps_files (st_fs st) (st_fs st').
Proof.
  intros Hfile.
  destruct (st_fs st !! p) as [[i d|mt]|] eqn:Hp;
    try (unfold isfile in Hfile; rewrite Hp in Hfile; done).
  destruct (get_photo_date (st_fs st) p) as [dt|] eqn:Hdate.
  2:{ unfold sort_one. rewrite (proj2 (exists_true _ _)) by eauto. simpl.
      rewrite Hdate. eexists. split; [done|]. simpl.
      split; [apply frame_refl | apply keeps_files_refl]. }
  destruct (makedirs clock (st_fs st) (day_folder_of root dt) true)
    as [s1|e] eqn:Hmk.
  2:{ unfold sort_one. rewrite (proj2 (exists_true _ _)) by eauto. simpl.
      rewrite Hdate, Hmk. rewrite (makedirs_raises_OSError _ _ _ _ _ Hmk).
      simpl. eexists. split; [done|]. simpl.
      split; [apply frame_refl | apply keeps_files_refl]. }
  assert (Hp1 : s1 !! p = Some (File i d)).
  { rewrite (makedirs_preserves _ _ _ _ _ _ Hmk); [done | by eauto]. }
  pose proof (makedirs_frame _ _ _ _ p _ Hmk) as Hfr1.
  pose proof (keeps_files_makedirs _ _ _ _ _ Hmk) as Hk1.
  destruct (sort_one_file root st p i d dt s1 Hp Hdate Hmk)
    as (n & Hstop & Hbusy & Hrun).
  set (dst := candidate _ _ _ n) in *.
  rewrite Hrun. case_bool_decide as Heq; simpl.
  { eexists. split; [done|]. by simpl. }
  destruct (s1 !! dst) as [nd|] eqn:Hdst.
  { eexists. split; [done|]. by simpl. }
  eexists. split; [done|]. simpl. split.
  - apply (frame_trans _ s1); [done|].
    intros r Hr Hsome. rewrite lookup_insert_ne, lookup_delete_ne; [done|done|].
    intros <-. rewrite Hdst in Hsome. by destruct Hsome.
  - apply (keeps_files_trans _ s1); [done|].
    apply keeps_files_move; [done | done | apply keeps_files_refl].
Qed.

Lemma sort_run_effect (root : path) (l : list path) (st : sort_state) :
  NoDup l ->
  Forall (fun p => isfile (st_fs st) p = true) l ->
  let r := for_each_st (sort_one root) l st in
  r.2 = None
  /\ (forall q : path, q ∉ l -> is_Some (st_fs st !! q) ->
        st_fs r.1 !! q = st_fs st !! q)
  /\ keeps_files (st_fs st) (st_fs r.1).
Proof.
  revert st. induction l as [|p l IH]; intros st Hnd Hfiles; simpl.
  { split; [done|]. split; [done | apply keeps_files_refl]. }
  apply NoDup_cons in Hnd as [Hp Hnd]. apply Forall_cons in Hfiles as [Hf Hfiles].
  destruct (sort_one_effect root st p Hf) as (st' & -> & Hfr & Hk).
  destruct (IH st' Hnd) as (Hnone & Hframe & Hkeep).
  { rewrite Forall_forall in Hfiles |- *. intros q Hq.
    apply (isfile_frame (st_fs st) _ p); [by intros -> | done | by apply Hfiles]. }
  split; [done|]. split.
  - intros q Hq Hsome. apply not_elem_of_cons in Hq as [Hqp Hql].
    rewrite <- (Hfr q Hqp Hsome). apply Hframe; [done|].
    by rewrite (Hfr q Hqp Hsome).
  - by apply (keeps_files_trans _ (st_fs st')).
Qed.

(** X7. Sorting a list of distinct regular files never raises, never
    touches an entry whose path is not in the list (no other file or
    directory is moved, replaced or removed), and loses no file: every
    regular file of the initial tree is still in the final tree with its
    inode and data. *)
Theorem sort_photos_frame (s : tree) (image_paths : list path)
    (destination_base_folder : path) :
  NoDup image_paths ->
  Forall (fun p => isfile s p = true) image_paths ->
  let r := sort_photos s image_paths destination_base_folder in
  r.2 = None
  /\ (forall q : path, q ∉ image_paths -> is_Some (s !! q) ->
        st_fs r.1 !! q = s !! q)
  /\ (forall (p : path) i d, s !! p = Some (File i d) ->
        exists p' : path, st_fs r.1 !! p' = Some (File i d)).
Proof.
  intros Hnd Hfiles r. subst r. unfold sort_photos.
  case_bool_decide; [by split_and!; [| |apply keeps_files_refl]|].
  destruct (exists_ s destination_base_folder) eqn:Hex; simpl.
  - by apply sort_run_effect.
  - destruct (makedirs clock s destination_base_folder false) as [s0|e] eqn:Hmk.
    + destruct (sort_run_effect destination_base_folder image_paths
                  (SortState s0 0 0 []) Hnd) as (Hnone & Hframe & Hkeep).
      { simpl. eapply Forall_impl; [exact Hfiles|]. intros q Hq. simpl in *.
        pose proof (isfile_is_Some _ _ Hq) as Hsome. unfold isfile in *.
        by rewrite (makedirs_preserves _ _ _ _ _ _ Hmk Hsome). }
      simpl in *. split; [done|]. split.
      * intros q Hq Hsome.
        rewrite <- (makedirs_preserves _ _ _ _ _ _ Hmk Hsome).
        apply Hframe; [done|].
        by rewrite (makedirs_preserves _ _ _ _ _ _ Hmk Hsome).
      * apply (keeps_files_trans _ s0); [|done].
        by apply (keeps_files_makedirs _ _ _ _ _ Hmk).
    + rewrite (makedirs_raises_OSError _ _ _ _ _ Hmk). simpl.
      by split_and!; [| |apply keeps_files_refl].
Qed.

End SortFrame.

(** The third [x.jpg] of the album and the scan are sorted; the picture
    already at [x.jpg] in the day folder is not touched. *)
Lemma sort_photos_frame_witness :
  let r := sort_photos (H := sample_platform) album
             [["in3"; "x.jpg"]; ["in3"; "scan.png"]] ["out"] in
  r.2 = None
  /\ st_fs r.1 !! (day_17 ++ ["x.jpg"]) = album !! (day_17 ++ ["x.jpg"])
  /\ exists p' : path,
       st_fs r.1 !! p' = Some (File 5 (plain [x45] 1546387200)).
Proof.
  intros r.
  destruct (sort_photos_frame (H := sample_platform) album
              [["in3"; "x.jpg"]; ["in3"; "scan.png"]] ["out"])
    as (Hnone & Hframe & Hkeep).
  - by apply (bool_decide_unpack _).
  - repeat (constructor; [reflexivity|]). constructor.
  - split; [exact Hnone|]. split.
    + apply Hframe; [|eexists; reflexivity].
      by apply (bool_decide_unpack _).
    + apply (Hkeep ["in3"; "scan.png"]). reflexivity.
Defined.

(** *** Every path is accounted for *)

Section SortAccounts.
Context `{Platform}.









End SortAccounts.

(** *** Where the sorted files end up *)

Section SortPlacement.
Context `{Platform}.

(** X9. Sorting a list of regular files into a root under which every
    regular file is already in place leaves such a root: in the tree the
    run produces, every regular file under the root, whether it was moved
    there by the run or found there, sits in the folder
    [root/str(year)/MM/DD] of the date [get_photo_date] gives for it, and
    that folder is a directory. *)
Theorem sort_photos_places_by_date (s : tree) (image_paths : list path)
    (destination_base_folder : path) :
  Forall (fun p => isfile s p = true) image_paths ->
  links_consistent s ->
  sorted_tree destination_base_folder s ->
  let r := sort_photos s image_paths destination_base_folder in
  forall p : path,
    destination_base_folder `prefix_of` p -> isfile (st_fs r.1) p = true ->
    exists dt,
      get_photo_date (st_fs r.1) p = Some dt
      /\ dirname p = day_folder_of destination_base_folder dt
      /\ isdir (st_fs r.1) (dirname p) = true.
Proof.
  intros Hfiles Hlc Hsorted r p Hpre Hf.
  destruct (first_run s image_paths destination_base_folder Hfiles Hlc Hsorted)
    as (_ & Hsf & _).
  destruct (Hsf p Hpre Hf) as (i & d & dt & Hlk & Hdate & Hpath & Hdirs).
  exists dt.
  assert (Hdn : dirname p = day_folder_of destination_base_folder dt).
  { rewrite Hpath at 1. apply dirname_join. }
  split_and!; [done | done |]. rewrite Hdn. by apply Hdirs.
Qed.

End SortPlacement.

(** The copy [a.jpg] of [dup_tree] ends up in the folder of 2 January
    2019, the day it was last modified. *)
Lemma sort_photos_places_by_date_witness :
  let r := sort_photos (H := sample_platform) dup_tree
             [["pics"; "a.jpg"]; ["pics"; "b.jpg"]] ["out"] in
  let p := ["out"; "2019"; "01"; "02"; "a.jpg"] in
  exists dt,
    get_photo_date (H := sample_platform) (st_fs r.1) p = Some dt
    /\ dirname p = day_folder_of ["out"] dt
    /\ isdir (st_fs r.1) (dirname p) = true.
Proof.
  intros r p.
  apply (sort_photos_places_by_date (H := sample_platform) dup_tree
           [["pics"; "a.jpg"]; ["pics"; "b.jpg"]] ["out"]).
  - repeat (constructor; [reflexivity|]). constructor.
  - apply no_links_consistent, dup_tree_no_links.
  - apply dup_tree_sorted.
  - by eexists.
  - reflexivity.
Defined.
